(** * vuepik: the ImageSelector component

    A shallow embedding of [src/components/ImageSelector.vue]: the yup
    validation schema ([imageValidationSchema]), the reactive [state], and the
    handlers [select], [reset], [handleDrag], [handleDrop], [handleChange],
    [handleReset], together with the part of the browser they act on (the
    object-URL store behind [URL.createObjectURL] / [URL.revokeObjectURL]).

    Conventions of the model.
    - A JavaScript string is a [string] of 8-bit characters; [toLowerCase]
      lowers the letters A-Z, so file names are covered up to ASCII.
    - [File.size] is a natural number of bytes ([N]); [props.maxSize] is an
      integer ([Z]).  Both are below 2^53 in a browser, where division by
      1024 is exact on doubles, so quotients are kept as exact fractions
      with denominator 2^20.
    - [undefined] and [null] are [None]. *)

From Stdlib Require Import ZArith NArith List Bool Ascii String Lia.
From Stdlib Require Import DecimalString.
From stdpp Require Import gmap.

Import ListNotations.
Local Open Scope string_scope.
Local Open Scope Z_scope.

(** ** The JavaScript built-ins the component calls *)

Module JS.

(** Truthiness of the three kinds of value the source tests. *)
Definition truthy_string (s : string) : bool :=
  match s with EmptyString => false | String _ _ => true end.

Definition truthy_number (n : Z) : bool := negb (n =? 0).

(** [a || b] where [a] may be [undefined]: the right operand is taken when
    the left one is falsy. *)
Definition or_else {A} (truthy : A -> bool) (a : option A) (b : A) : A :=
  match a with
  | Some x => if truthy x then x else b
  | None => b
  end.

(** An array is always truthy, also the empty one. *)
Definition truthy_array {A} (_ : list A) : bool := true.

(** [String.prototype.split] with a one-character separator. *)
Fixpoint split (sep : ascii) (s : string) : list string :=
  match s with
  | EmptyString => [EmptyString]
  | String c rest =>
      if Ascii.eqb c sep then EmptyString :: split sep rest
      else match split sep rest with
           | [] => [String c EmptyString]
           | seg :: segs => String c seg :: segs
           end
  end.

(** [Array.prototype.pop], as used on a temporary: the last element, or
    [undefined] on the empty array. *)
Fixpoint pop {A} (l : list A) : option A :=
  match l with
  | [] => None
  | [x] => Some x
  | _ :: tl => pop tl
  end.

Definition lower_char (c : ascii) : ascii :=
  let n := N_of_ascii c in
  if ((65 <=? n) && (n <=? 90))%N then ascii_of_N (n + 32) else c.

(** [String.prototype.toLowerCase], on ASCII strings (see [is_ascii]). *)
Fixpoint toLowerCase (s : string) : string :=
  match s with
  | EmptyString => EmptyString
  | String c rest => String (lower_char c) (toLowerCase rest)
  end.

(** [Array.prototype.includes] on strings (strict equality). *)
Definition includes (l : list string) (x : string) : bool :=
  existsb (String.eqb x) l.

(** [Array.prototype.join]. *)
Definition join (sep : string) (l : list string) : string :=
  String.concat sep l.

(** Whether the character occurs in the string. *)
Fixpoint contains (c : ascii) (s : string) : bool :=
  match s with
  | EmptyString => false
  | String d rest => Ascii.eqb d c || contains c rest
  end.

(** A template literal renders [undefined] by its name. *)
Definition interpolate (s : option string) : string :=
  match s with Some x => x | None => "undefined" end.

(** Decimal digits of a natural number. *)
Definition digits (n : Z) : string :=
  NilZero.string_of_uint (N.to_uint (Z.to_N n)).

Fixpoint zeros (n : nat) : string :=
  match n with O => EmptyString | S n' => String "0" (zeros n') end.

(** [substring 0 n] and the rest of the string. *)
Fixpoint take_str (n : nat) (s : string) : string :=
  match n, s with
  | S n', String c r => String c (take_str n' r)
  | _, _ => EmptyString
  end.

Fixpoint drop_str (n : nat) (s : string) : string :=
  match n, s with
  | S n', String _ r => drop_str n' r
  | _, _ => s
  end.

(** *** Numbers of the form [m / 1024 / 1024]

    The only non-integer numbers of the component are byte counts divided
    twice by 1024.  Such a quotient is exact on doubles, so it is
    represented by its numerator [m]: the value is [m / 2^20]. *)

Definition MiB : Z := 1024 * 1024.

(** [Number.prototype.toFixed(2)] of [m / 2^20], [m >= 0]: the integer [n]
    for which [n / 100] is closest to the value, the larger one on a tie,
    printed with two fractional digits. *)
Definition hundredths (m : Z) : Z := (100 * m + MiB / 2) / MiB.

Definition toFixed2 (m : Z) : string :=
  let n := hundredths m in
  let frac := digits (n mod 100) in
  digits (n / 100) ++ "." ++ zeros (2 - String.length frac) ++ frac.

(** [Number::toString] of [m / 2^20]: the shortest decimal [s * 10^(n-k)]
    ([s] of [k] digits) that converts back to the same double, the closest
    one to the value among those of that length.

    [in_interval] decides whether [s * 10^t] rounds to the double of value
    [m / 2^20] (round to nearest, ties to even): with [b = log2 m] the unit
    in the last place is [2^(b-72)], halved below a power of two.  Both
    sides of the comparison are scaled to integers. *)
Definition pow10 (t : Z) : Z := 10 ^ (Z.max t 0).

Definition scaled_diff (m s t : Z) : Z :=
  2 * (s * pow10 t * 2 ^ 73 - m * 2 ^ 53 * pow10 (- t)).

Definition even_mantissa (m : Z) : bool :=
  let b := Z.log2 m in
  (b <? 52) || negb (Z.testbit m (b - 52)).

Definition in_interval (m s t : Z) : bool :=
  let b := Z.log2 m in
  let d := scaled_diff m s t in
  let up := 2 * 2 ^ b * pow10 (- t) in
  let lo := if m =? 2 ^ b then 2 ^ b * pow10 (- t) else up in
  if even_mantissa m then (- lo <=? d) && (d <=? up)
  else (- lo <? d) && (d <? up).

(** The decimal exponent [n]: [10^(n-1) <= m / 2^20 < 10^n]. *)
Fixpoint small_exponent (fuel : nat) (m : Z) (n : Z) : Z :=
  match fuel with
  | O => n
  | S fuel' => if MiB <=? 10 * m then n else small_exponent fuel' (10 * m) (n - 1)
  end.

Definition dec_exponent (m : Z) : Z :=
  if MiB <=? m then Z.of_nat (String.length (digits (m / MiB)))
  else small_exponent 25 m 0.

(** The candidates with [k] digits are the two neighbours of the value. *)
Definition candidate (m n k : Z) : option Z :=
  let t := n - k in
  let s_lo := (m * pow10 (- t)) / (MiB * pow10 t) in
  let s_hi := s_lo + 1 in
  let d_lo := Z.abs (scaled_diff m s_lo t) in
  let d_hi := Z.abs (scaled_diff m s_hi t) in
  match in_interval m s_lo t, in_interval m s_hi t with
  | true, true =>
      if d_lo <? d_hi then Some s_lo
      else if d_hi <? d_lo then Some s_hi
      else if Z.even s_lo then Some s_lo else Some s_hi
  | true, false => Some s_lo
  | false, true => Some s_hi
  | false, false => None
  end.

(** Seventeen digits identify every double, so the search stops there. *)
Fixpoint shortest (fuel : nat) (m n k : Z) : Z * Z :=
  match fuel with
  | O => ((m * pow10 (k - n)) / (MiB * pow10 (n - k)), n)
  | S fuel' =>
      match candidate m n k with
      | Some s => if s =? 10 ^ k then (1, n + 1) else (s, n)
      | None => shortest fuel' m n (k + 1)
      end
  end.

Definition format_number (s n : Z) : string :=
  let ds := digits s in
  let k := Z.of_nat (String.length ds) in
  if (k <=? n) && (n <=? 21) then ds ++ zeros (Z.to_nat (n - k))
  else if (0 <? n) && (n <=? 21) then
    take_str (Z.to_nat n) ds ++ "." ++ drop_str (Z.to_nat n) ds
  else if (-6 <? n) && (n <=? 0) then "0." ++ zeros (Z.to_nat (- n)) ++ ds
  else
    let e := n - 1 in
    let sign := if e <? 0 then "-" else "+" in
    if k =? 1 then ds ++ "e" ++ sign ++ digits (Z.abs e)
    else take_str 1 ds ++ "." ++ drop_str 1 ds ++ "e" ++ sign ++ digits (Z.abs e).

Definition toString_pos (m : Z) : string :=
  let '(s, n) := shortest 17 m (dec_exponent m) 1 in
  format_number s n.

Definition Number_toString (m : Z) : string :=
  if m =? 0 then "0"
  else if m <? 0 then "-" ++ toString_pos (- m)
  else toString_pos m.

Definition upper_char (c : ascii) : ascii :=
  let n := N_of_ascii c in
  if ((97 <=? n) && (n <=? 122))%N then ascii_of_N (n - 32) else c.

(** [String.prototype.toUpperCase], on ASCII strings (see [is_ascii]). *)
Fixpoint toUpperCase (s : string) : string :=
  match s with
  | EmptyString => EmptyString
  | String c rest => String (upper_char c) (toUpperCase rest)
  end.

(** The strings on which the two case conversions above are those of
    JavaScript: outside ASCII, JavaScript also converts letters that the
    functions above leave alone. *)
Fixpoint is_ascii (s : string) : bool :=
  match s with
  | EmptyString => true
  | String c rest => (N_of_ascii c <? 128)%N && is_ascii rest
  end.

(** The numerator of [Math.floor(m / 1024 / 1024)]. *)
Definition floor_MiB (m : Z) : Z := (m / MiB) * MiB.

End JS.

(** ** Data of the component *)

(** A [File] of the browser, as far as the component reads it. *)
Record File := { name : string; size : N }.

(** [defineProps]: every prop is optional. *)
Record Props := {
  src : option string;
  supportedFormats : option (list string);
  maxSize : option Z;
  annotations : option bool
}.

Definition set_src (newSrc : option string) (p : Props) : Props :=
  {| src := newSrc; supportedFormats := supportedFormats p;
     maxSize := maxSize p; annotations := annotations p |}.

(** The reactive [state]. *)
Record State := { image : option File; touched : bool; error : option string }.

Definition initial_state : State :=
  {| image := None; touched := false; error := None |}.

(** [defineEmits]. *)
Inductive Emit :=
| EmitSelect (file : File)
| EmitReset
| EmitError (msg : string).

(** ** The validation schema *)

Definition validImageFormats : list string := ["jpg"; "jpeg"; "png"; "webp"; "gif"].

(** The result of a yup test function: [true] or a [ValidationError]. *)
Inductive TestResult := Pass | Fail (message : string).

(** [value.name.split('.').pop()?.toLowerCase()] *)
Definition fileExtension (value : File) : option string :=
  option_map JS.toLowerCase (JS.pop (JS.split "." (name value))).

(** [props.supportedFormats || validImageFormats] *)
Definition allowedFormats (props : Props) : list string :=
  JS.or_else JS.truthy_array (supportedFormats props) validImageFormats.

(** [validImageFormats.includes(fileExtension!)] *)
Definition isImageFormat (ext : option string) : bool :=
  match ext with
  | Some e => JS.includes validImageFormats e
  | None => false
  end.

(** [fileExtension ? allowedFormats.includes(fileExtension) : true] *)
Definition isAllowedFormat (props : Props) (ext : option string) : bool :=
  match ext with
  | Some e => if JS.truthy_string e then JS.includes (allowedFormats props) e else true
  | None => true
  end.

Definition unsupported_msg (ext : option string) : string :=
  "Unsupported file format: ." ++ JS.interpolate ext
  ++ ". Supported formats are: " ++ JS.join ", " validImageFormats ++ ".".

Definition not_allowed_msg (props : Props) (ext : option string) : string :=
  "Unsupported file format: ." ++ JS.interpolate ext
  ++ ". Allowed formats are: " ++ JS.join ", " (allowedFormats props) ++ ".".

(** The test ['fileFormat']. *)
Definition test_fileFormat (props : Props) (value : option File) : TestResult :=
  match value with
  | None => Pass
  | Some value =>
      let ext := fileExtension value in
      if negb (isImageFormat ext) then Fail (unsupported_msg ext)
      else if negb (isAllowedFormat props ext) then Fail (not_allowed_msg props ext)
      else Pass
  end.

(** [props.maxSize || 5 * 1024 * 1024] *)
Definition maxFileSize (props : Props) : Z :=
  JS.or_else JS.truthy_number (maxSize props) (5 * 1024 * 1024).

Definition too_large_msg (props : Props) (value : File) : string :=
  let fileSizeMB := JS.toFixed2 (Z.of_N (size value)) in
  let maxFileSizeMB := JS.Number_toString (maxFileSize props) in
  "File size is too large: " ++ fileSizeMB
  ++ "MB. Maximum allowed size is " ++ maxFileSizeMB ++ "MB.".

(** The test ['fileSize']. *)
Definition test_fileSize (props : Props) (value : option File) : TestResult :=
  match value with
  | None => Pass
  | Some value =>
      if Z.of_N (size value) >? maxFileSize props then Fail (too_large_msg props value)
      else Pass
  end.

(** [.required('Please select an image file')] *)
Definition test_required (value : option File) : TestResult :=
  match value with
  | None => Fail "Please select an image file"
  | Some _ => Pass
  end.

(** The tests of the [image] field, in the order of the schema. *)
Definition image_tests (props : Props) : list (option File -> TestResult) :=
  [test_fileFormat props; test_fileSize props; test_required].

(** [schema.validate] resolves, or rejects with a [ValidationError]; the
    component reads [error.errors[0]], the message of the first test of the
    chain that fails. *)
Inductive Outcome := Accepted | Rejected (reason : string).

Fixpoint first_failure (tests : list (option File -> TestResult))
    (value : option File) : Outcome :=
  match tests with
  | [] => Accepted
  | t :: rest =>
      match t value with
      | Fail msg => Rejected msg
      | Pass => first_failure rest value
      end
  end.

Definition validate (props : Props) (value : option File) : Outcome :=
  first_failure (image_tests props) value.

(** ** The browser's object-URL store

    [URL.createObjectURL] registers the blob under a URL that was never
    handed out before; [URL.revokeObjectURL] removes the registration.  A
    URL is leaked while it stays registered. *)

Record URLStore := { next_id : nat; registered : gmap nat File }.

Definition empty_store : URLStore := {| next_id := 0; registered := ∅ |}.

Definition createObjectURL (f : File) (s : URLStore) : nat * URLStore :=
  (next_id s,
   {| next_id := S (next_id s); registered := <[next_id s := f]> (registered s) |}).

Definition revokeObjectURL (u : nat) (s : URLStore) : URLStore :=
  {| next_id := next_id s; registered := delete u (registered s) |}.

(** Every registered URL was handed out by the store. *)
Definition store_wf (s : URLStore) : Prop :=
  forall u f, registered s !! u = Some f -> (u < next_id s)%nat.

(** What the [src] attribute of the [<img>] holds. *)
Inductive Url := BlobUrl (id : nat) | PlainUrl (s : string).

(** ** Input events

    [target_files] is [event.target.files] when the target has such a
    property (a file input), [dataTransfer] the field of a [DragEvent]. *)

Inductive DataTransferField :=
| NotDragEvent
| DragEvent (files : option (list File)).

Record Event := { target_files : option (list File); dataTransfer : DataTransferField }.

(** A change event of the file input, and a drop on the wrapper. *)
Definition picker_event (files : list File) : Event :=
  {| target_files := Some files; dataTransfer := NotDragEvent |}.

Definition drop_event (files : list File) : Event :=
  {| target_files := None; dataTransfer := DragEvent (Some files) |}.

(** The first part of [select]: the file of the event, [None] where the
    function returns early. *)
Definition extract_file (event : Event) : option File :=
  match target_files event with
  | Some files =>
      match files with
      | file :: _ => Some file
      | [] => None
      end
  | None =>
      match dataTransfer event with
      | DragEvent (Some (file :: _)) => Some file
      | _ => None
      end
  end.

(** ** The component instance *)

Record Component := {
  props : Props;
  state : State;
  isDragging : bool;
  urls : URLStore;
  img_src : option Url
}.

Definition with_state (st : State) (c : Component) : Component :=
  {| props := props c; state := st; isDragging := isDragging c;
     urls := urls c; img_src := img_src c |}.

Definition with_dragging (b : bool) (c : Component) : Component :=
  {| props := props c; state := state c; isDragging := b;
     urls := urls c; img_src := img_src c |}.

Definition with_urls (s : URLStore) (c : Component) : Component :=
  {| props := props c; state := state c; isDragging := isDragging c;
     urls := s; img_src := img_src c |}.

Definition with_img (u : option Url) (c : Component) : Component :=
  {| props := props c; state := state c; isDragging := isDragging c;
     urls := urls c; img_src := u |}.

Definition with_props (p : Props) (c : Component) : Component :=
  {| props := p; state := state c; isDragging := isDragging c;
     urls := urls c; img_src := img_src c |}.

Definition mount (p : Props) : Component :=
  {| props := p; state := initial_state; isDragging := false;
     urls := empty_store; img_src := None |}.

(** A handler returns the component after the call and what it emitted. *)
Definition Handler := Component -> Component * list Emit.

(** [previewUrl] *)
Definition previewUrl (c : Component) : Url * Component :=
  match image (state c) with
  | Some f =>
      let '(u, s) := createObjectURL f (urls c) in (BlobUrl u, with_urls s c)
  | None => (PlainUrl (JS.or_else JS.truthy_string (src (props c)) ""), c)
  end.

(** [select] *)
Definition select (event : Event) : Handler := fun c =>
  match extract_file event with
  | None => (c, [])
  | Some file =>
      match validate (props c) (Some file) with
      | Accepted =>
          (with_state {| image := Some file; touched := true; error := None |} c,
           [EmitSelect file])
      | Rejected msg =>
          (with_state {| image := image (state c); touched := touched (state c);
                         error := Some msg |} c,
           [EmitError msg])
      end
  end.

(** [reset] *)
Definition reset : Handler := fun c =>
  let c1 :=
    match image (state c) with
    | Some f =>
        let '(u, s) := createObjectURL f (urls c) in
        with_urls (revokeObjectURL u s) c
    | None => c
    end in
  (with_state {| image := None; touched := false; error := None |} c1, [EmitReset]).

Definition handleDrag (isOver : bool) : Handler := fun c =>
  (with_dragging isOver c, []).

Definition handleDrop (event : Event) : Handler := fun c =>
  select event (with_dragging false c).

Definition handleChange (event : Event) : Handler := select event.

Definition handleReset : Handler := fun c =>
  reset (with_dragging false c).

(** [handleBrowse] only opens the picker. *)
Definition handleBrowse : Handler := fun c => (c, []).

(** The watcher on [props.src], run when the host passes another [src]. *)
Definition same_src (a b : option string) : bool :=
  match a, b with
  | Some x, Some y => String.eqb x y
  | None, None => true
  | _, _ => false
  end.

Definition src_changed (newSrc : option string) : Handler := fun c =>
  if same_src newSrc (src (props c)) then (c, [])
  else
    let c1 := with_props (set_src newSrc (props c)) c in
    match newSrc with
    | Some s =>
        if JS.truthy_string s then
          (with_state {| image := None; touched := touched (state c1);
                         error := error (state c1) |} c1, [])
        else (c1, [])
    | None => (c1, [])
    end.

(** Rendering the template: the [<img>] exists when [state.image || props.src]
    and takes its [src] from a call of [previewUrl]. *)
Definition render : Handler := fun c =>
  if match image (state c) with
     | Some _ => true
     | None => match src (props c) with
               | Some s => JS.truthy_string s
               | None => false
               end
     end
  then let '(u, c1) := previewUrl c in (with_img (Some u) c1, [])
  else (with_img None c, []).

(** What can happen to a mounted component.  The running component renders
    again by itself after a change of anything the template reads ([state],
    [isDragging], the props); here a render is an action of its own, so the
    runs of the component are among the runs below: those in which such a
    change is followed by [Render]. *)
Inductive Action :=
| Change (event : Event)
| Drop (event : Event)
| DragHover (isOver : bool)
| ClickReset
| Browse
| SrcChanged (newSrc : option string)
| Render.

Definition step (a : Action) : Handler :=
  match a with
  | Change e => handleChange e
  | Drop e => handleDrop e
  | DragHover b => handleDrag b
  | ClickReset => handleReset
  | Browse => handleBrowse
  | SrcChanged s => src_changed s
  | Render => render
  end.

(** Running a sequence of actions, collecting the emitted events in order. *)
Fixpoint run (acts : list Action) (c : Component) : Component * list Emit :=
  match acts with
  | [] => (c, [])
  | a :: rest =>
      let '(c1, out1) := step a c in
      let '(c2, out2) := run rest c1 in
      (c2, (out1 ++ out2)%list)
  end.

(** *** The history of a run, for stating what a state records *)

(** The file an action submits to validation, if any. *)
Definition attempt (a : Action) : option File :=
  match a with
  | Change e | Drop e => extract_file e
  | _ => None
  end.

(** The file of the most recent selection attempt. *)
Fixpoint last_attempt (acts : list Action) (acc : option File) : option File :=
  match acts with
  | [] => acc
  | a :: rest =>
      last_attempt rest (match attempt a with Some f => Some f | None => acc end)
  end.

(** ** The properties as the specification words them

    These definitions follow the specification, not the code; the theorems
    below compare them with the definitions above. *)

(** "The substring after the last '.' in the file name" (the whole name
    when it has no '.'). *)
Fixpoint spec_after_last_dot (s : string) : string :=
  match s with
  | EmptyString => EmptyString
  | String c rest =>
      if JS.contains "." rest then spec_after_last_dot rest
      else if Ascii.eqb c "." then rest
      else s
  end.

(** "Derived extension": that substring, lowercased. *)
Definition spec_derived_extension (f : File) : string :=
  JS.toLowerCase (spec_after_last_dot (name f)).

(** "The built-in set {jpg, jpeg, png, webp, gif}". *)
Definition spec_builtin (ext : string) : Prop :=
  In ext ["jpg"; "jpeg"; "png"; "webp"; "gif"].

(** "Equal up to letter case". *)
Definition spec_eq_up_to_case (a b : string) : Prop :=
  JS.toLowerCase a = JS.toLowerCase b.

(** "The configured maximum (default 5 x 1024 x 1024 bytes when none is
    configured)". *)
Definition spec_configured_maximum (p : Props) : Z :=
  match maxSize p with
  | Some m => m
  | None => 5 * 1024 * 1024
  end.

(** "currentFile is non-null only when touched is true and errorMessage is
    null". *)
Definition spec_file_implies_clean (s : State) : Prop :=
  image s <> None -> touched s = true /\ error s = None.

(** An action whose file passes validation. *)
Definition accepted_attempt (p : Props) (a : Action) : Prop :=
  exists f, attempt a = Some f /\ validate p (Some f) = Accepted.

(** ** Sample inputs *)

Definition default_props : Props :=
  {| src := None; supportedFormats := None; maxSize := None; annotations := None |}.

Definition props_with (formats : option (list string)) (limit : option Z) : Props :=
  {| src := None; supportedFormats := formats; maxSize := limit; annotations := None |}.

Definition photo_png : File := {| name := "photo.png"; size := 2 * 1024 * 1024 |}.
Definition a_jpg : File := {| name := "a.jpg"; size := 1024 |}.
Definition b_gif : File := {| name := "b.gif"; size := 6 * 1024 * 1024 |}.
Definition c_exe : File := {| name := "c.exe"; size := 10 * 1024 |}.
Definition a_png : File := {| name := "a.png"; size := 1024 |}.
Definition upper_png : File := {| name := "A.PNG"; size := 1024 |}.
Definition one_byte_png : File := {| name := "dot.png"; size := 1 |}.

(** What the state of a component records about the actions before it:
    [la] is the file of the most recent selection attempt and [succ] holds
    when some attempt was accepted. *)
Definition records_history (p : Props) (la : option File) (succ : Prop)
    (c : Component) : Prop :=
  supportedFormats (props c) = supportedFormats p
  /\ maxSize (props c) = maxSize p
  /\ (forall msg, error (state c) = Some msg ->
        exists f, la = Some f /\ validate p (Some f) = Rejected msg)
  /\ (touched (state c) = true -> succ)
  /\ (forall f, image (state c) = Some f ->
        touched (state c) = true /\ validate p (Some f) = Accepted).

(** A valid file was picked and the template rendered its preview. *)
Definition preview_shown : Component :=
  fst (run [Change (picker_event [photo_png]); Render] (mount default_props)).

(** A valid file was picked, then a file that validation rejects. *)
Definition picked_then_rejected : Component :=
  fst (run [Change (picker_event [photo_png]); Change (picker_event [c_exe])]
         (mount default_props)).

(** ** The rest of the template *)

(** The text of the [supported-formats] span: the list the host passed when
    it has an entry, the built-in list otherwise. *)
Definition annotation_formats (p : Props) : string :=
  match supportedFormats p with
  | Some l =>
      if (0 <? Z.of_nat (List.length l))
      then JS.toUpperCase (JS.join ", " l)
      else JS.toUpperCase (JS.join ", " validImageFormats)
  | None => JS.toUpperCase (JS.join ", " validImageFormats)
  end.

(** [props.maxSize && props.maxSize < 1024 * 1024] *)
Definition below_one_MiB (p : Props) : bool :=
  match maxSize p with
  | Some m => JS.truthy_number m && (m <? 1024 * 1024)
  | None => false
  end.

(** [Math.floor((props.maxSize || 0) / 1024 / 1024)] *)
Definition annotation_whole_MiB (p : Props) : Z :=
  JS.or_else JS.truthy_number (maxSize p) 0 / JS.MiB.

(** The text of the [maximum-size] span. *)
Definition annotation_max_size (p : Props) : string :=
  if below_one_MiB p then "< 1MB"
  else JS.Number_toString (JS.floor_MiB (JS.or_else JS.truthy_number (maxSize p) 0))
       ++ "MB".

(** The annotations block exists when [props.annotations] is truthy. *)
Definition annotations_block (p : Props) : option (string * string) :=
  match annotations p with
  | Some true => Some (annotation_formats p, annotation_max_size p)
  | _ => None
  end.

(** The error block: [v-if="state.error"]. *)
Definition error_block (s : State) : option string :=
  match error s with
  | Some msg => if JS.truthy_string msg then Some msg else None
  | None => None
  end.

(** The reset control: [v-if="state.image"]. *)
Definition reset_control_shown (s : State) : bool :=
  match image s with Some _ => true | None => false end.

(** *** What a host sees

    A host that listens to the three events can keep its own copy of the
    state: [replay] is that copy. *)
Definition replay_event (s : State) (ev : Emit) : State :=
  match ev with
  | EmitSelect f => {| image := Some f; touched := true; error := None |}
  | EmitReset => initial_state
  | EmitError msg => {| image := image s; touched := touched s; error := Some msg |}
  end.

Definition replay (s : State) (evs : list Emit) : State :=
  fold_left replay_event evs s.

(** The host's copy of the state follows the component. *)
Definition follows (s r : State) : Prop :=
  touched s = touched r /\ error s = error r
  /\ (image s = image r \/ image s = None).

(** The preview never dangles. *)
Definition preview_resolves (c : Component) : Prop :=
  store_wf (urls c)
  /\ forall u, img_src c = Some (BlobUrl u) ->
               exists f, registered (urls c) !! u = Some f.

(** The validator's props are the ones of the mount. *)
Definition props_fixed (p : Props) (c : Component) : Prop :=
  supportedFormats (props c) = supportedFormats p /\ maxSize (props c) = maxSize p.

(** What must have happened for an event to be emitted by an action. *)
Definition justified (p : Props) (a : Action) (ev : Emit) : Prop :=
  match ev with
  | EmitSelect f => attempt a = Some f /\ validate p (Some f) = Accepted
  | EmitError msg => exists f, attempt a = Some f /\ validate p (Some f) = Rejected msg
  | EmitReset => a = ClickReset
  end.

Definition is_src_change (a : Action) : bool :=
  match a with SrcChanged _ => true | _ => false end.

Definition is_view_only (a : Action) : bool :=
  match a with DragHover _ | Browse | Render => true | _ => false end.

(** The number of events an action gives rise to. *)
Definition emits_of (a : Action) : nat :=
  match a with
  | ClickReset => 1
  | Change e | Drop e => match extract_file e with Some _ => 1 | None => 0 end
  | _ => 0
  end.

(** Two components with the same props and the same selection state. *)
Definition same_selection (c d : Component) : Prop :=
  props c = props d /\ state c = state d.

(** ** The build configuration ([vite.config.ts])

    [build.lib.fileName]: the name of the bundle for an output format. *)
Definition fileName (format name : string) : string :=
  if String.eqb format "es" then name ++ ".js"
  else name ++ "." ++ format ++ ".js".

(** * Theorems *)

(** ** Strings *)

Section SplitFacts.
Variable sep : ascii.

Lemma split_not_nil (s : string) : JS.split sep s <> [].
Proof.
  destruct s as [|c rest]; simpl; [discriminate|].
  destruct (Ascii.eqb c sep); [discriminate|].
  destruct (JS.split sep rest); discriminate.
Qed.

Lemma split_no_sep (s : string) :
  JS.contains sep s = false -> JS.split sep s = [s].
Proof.
  induction s as [|c rest IH]; simpl; [reflexivity|].
  intros H. apply orb_false_iff in H as [Hc Hrest].
  rewrite Hc, (IH Hrest). reflexivity.
Qed.

Lemma split_with_sep (s : string) :
  JS.contains sep s = true -> exists a b l, JS.split sep s = a :: b :: l.
Proof.
  induction s as [|c rest IH]; simpl; [discriminate|].
  destruct (Ascii.eqb c sep) eqn:Hc; simpl.
  - intros _. destruct (JS.split sep rest) as [|b l] eqn:Hs.
    + exfalso. exact (split_not_nil rest Hs).
    + exists EmptyString, b, l. reflexivity.
  - intros H. destruct (IH H) as (a & b & l & ->).
    exists (String c a), b, l. reflexivity.
Qed.
End SplitFacts.

Lemma pop_cons2 {A} (x y : A) (l : list A) : JS.pop (x :: y :: l) = JS.pop (y :: l).
Proof. reflexivity. Qed.

Lemma after_last_dot_no_dot (s : string) :
  JS.contains "." s = false -> spec_after_last_dot s = s.
Proof.
  destruct s as [|c rest]; simpl; [reflexivity|].
  intros H. apply orb_false_iff in H as [Hc Hrest].
  rewrite Hrest, Hc. reflexivity.
Qed.

(** The code's [split('.').pop()] is the substring after the last '.'. *)
Lemma pop_split_after_last_dot (s : string) :
  JS.pop (JS.split "." s) = Some (spec_after_last_dot s).
Proof.
  induction s as [|c rest IH]; [reflexivity|].
  cbn [JS.split spec_after_last_dot].
  destruct (JS.contains "." rest) eqn:Hrest.
  - destruct (split_with_sep "." rest Hrest) as (a & b & l & Hs).
    rewrite Hs in IH |- *.
    destruct (Ascii.eqb c "."); rewrite !pop_cons2; rewrite pop_cons2 in IH; exact IH.
  - rewrite (split_no_sep "." rest Hrest).
    destruct (Ascii.eqb c "."); reflexivity.
Qed.

Lemma fileExtension_spec (f : File) :
  fileExtension f = Some (spec_derived_extension f).
Proof.
  unfold fileExtension, spec_derived_extension.
  rewrite pop_split_after_last_dot. reflexivity.
Qed.

Lemma lower_char_idem (c : ascii) : JS.lower_char (JS.lower_char c) = JS.lower_char c.
Proof. destruct c as [[] [] [] [] [] [] [] []]; reflexivity. Qed.

Lemma toLowerCase_idem (s : string) :
  JS.toLowerCase (JS.toLowerCase s) = JS.toLowerCase s.
Proof.
  induction s as [|c rest IH]; simpl; [reflexivity|].
  rewrite lower_char_idem, IH. reflexivity.
Qed.

Lemma includes_In (l : list string) (x : string) :
  JS.includes l x = true <-> In x l.
Proof.
  unfold JS.includes. rewrite existsb_exists. split.
  - intros (y & Hy & Heq). apply String.eqb_eq in Heq. subst. exact Hy.
  - intros H. exists x. split; [exact H | apply String.eqb_refl].
Qed.

Lemma includes_not_In (l : list string) (x : string) :
  JS.includes l x = false <-> ~ In x l.
Proof.
  rewrite <- includes_In. destruct (JS.includes l x); split; intros H;
    try discriminate; try reflexivity; try (intros ?; discriminate).
  exfalso. apply H. reflexivity.
Qed.

Lemma builtin_includes (ext : string) :
  spec_builtin ext <-> JS.includes validImageFormats ext = true.
Proof. symmetry. apply includes_In. Qed.

(** The decimal that the number printer picks converts back to the number
    it prints. *)
Lemma candidate_in_interval (m n k s : Z) :
  JS.candidate m n k = Some s -> JS.in_interval m s (n - k) = true.
Proof.
  unfold JS.candidate. cbn zeta.
  destruct (JS.in_interval m _ (n - k)) eqn:Hlo;
    destruct (JS.in_interval m (_ + 1) (n - k)) eqn:Hhi.
  - destruct (_ <? _); [intros [= <-]; exact Hlo|].
    destruct (_ <? _); [intros [= <-]; exact Hhi|].
    destruct (Z.even _); intros [= <-]; assumption.
  - intros [= <-]. exact Hlo.
  - intros [= <-]. exact Hhi.
  - discriminate.
Qed.

Example split_examples :
  JS.split "." "a.tar.GZ" = ["a"; "tar"; "GZ"] /\ JS.split "." "" = [""]
  /\ JS.split "." "x." = ["x"; ""] /\ JS.toLowerCase "Photo.PNG" = "photo.png".
Proof. repeat split; reflexivity. Qed.

(** ** The validator *)

Lemma validate_some (p : Props) (f : File) :
  validate p (Some f) =
  match test_fileFormat p (Some f) with
  | Fail msg => Rejected msg
  | Pass =>
      match test_fileSize p (Some f) with
      | Fail msg => Rejected msg
      | Pass => Accepted
      end
  end.
Proof.
  unfold validate, image_tests, first_failure.
  destruct (test_fileFormat p (Some f)); [|reflexivity].
  destruct (test_fileSize p (Some f)); reflexivity.
Qed.

Lemma test_fileFormat_some (p : Props) (f : File) :
  test_fileFormat p (Some f) =
  let ext := Some (spec_derived_extension f) in
  if negb (isImageFormat ext) then Fail (unsupported_msg ext)
  else if negb (isAllowedFormat p ext) then Fail (not_allowed_msg p ext)
  else Pass.
Proof. unfold test_fileFormat. rewrite fileExtension_spec. reflexivity. Qed.

(** The validator reads only [supportedFormats] and [maxSize]. *)
Lemma validate_props_ext (p q : Props) (v : option File) :
  supportedFormats p = supportedFormats q -> maxSize p = maxSize q ->
  validate p v = validate q v.
Proof.
  intros Hf Hm.
  unfold validate, image_tests, first_failure, test_fileFormat, test_fileSize,
    isAllowedFormat, not_allowed_msg, too_large_msg, allowedFormats, maxFileSize.
  rewrite Hf, Hm. reflexivity.
Qed.

Lemma builtin_truthy (ext : string) : spec_builtin ext -> JS.truthy_string ext = true.
Proof.
  unfold spec_builtin. simpl.
  intros [<-|[<-|[<-|[<-|[<-|[]]]]]]; reflexivity.
Qed.

Lemma maxFileSize_cases (p : Props) :
  maxFileSize p =
  match maxSize p with
  | Some m => if m =? 0 then 5 * 1024 * 1024 else m
  | None => 5 * 1024 * 1024
  end.
Proof.
  unfold maxFileSize, JS.or_else, JS.truthy_number.
  destruct (maxSize p) as [m|]; [|reflexivity].
  destruct (m =? 0); reflexivity.
Qed.

(** [toFixed(2)] rounds to the nearest hundredth. *)
Lemma hundredths_nearest (m : Z) :
  2 * Z.abs (100 * m - JS.MiB * JS.hundredths m) <= JS.MiB.
Proof.
  unfold JS.hundredths. change JS.MiB with 1048576. change (1048576 / 2) with 524288.
  pose proof (Z.div_mod (100 * m + 524288) 1048576 ltac:(lia)) as Hdm.
  pose proof (Z.mod_pos_bound (100 * m + 524288) 1048576 ltac:(lia)) as Hb.
  lia.
Qed.

Lemma format_unknown (p : Props) (f : File) :
  ~ spec_builtin (spec_derived_extension f) ->
  test_fileFormat p (Some f) = Fail (unsupported_msg (Some (spec_derived_extension f))).
Proof.
  intros Hnot. rewrite test_fileFormat_some. cbn zeta. unfold isImageFormat.
  destruct (JS.includes validImageFormats (spec_derived_extension f)) eqn:Hin.
  - exfalso. apply Hnot. apply builtin_includes. exact Hin.
  - reflexivity.
Qed.

Lemma format_without_list (p : Props) (f : File) :
  spec_builtin (spec_derived_extension f) ->
  supportedFormats p = None ->
  test_fileFormat p (Some f) = Pass.
Proof.
  intros Hb Hnone.
  pose proof (proj1 (builtin_includes _) Hb) as Hinc.
  rewrite test_fileFormat_some. cbn zeta.
  unfold isImageFormat, isAllowedFormat, allowedFormats.
  rewrite Hinc, (builtin_truthy _ Hb), Hnone. cbn [negb JS.or_else].
  rewrite Hinc. reflexivity.
Qed.

(** C5: a file whose derived extension is outside the built-in set is
    rejected with the unsupported-format message that cites the built-in
    set, whatever [supportedFormats] and [maxSize] the host passed and
    whatever the size of the file: the rule comes before the policy rule and
    the size rule. *)
Theorem unknown_extension_rejected (p : Props) (f : File) :
  ~ spec_builtin (spec_derived_extension f) ->
  fileExtension f = Some (spec_derived_extension f)
  /\ validate p (Some f) =
     Rejected ("Unsupported file format: ." ++ spec_derived_extension f
               ++ ". Supported formats are: jpg, jpeg, png, webp, gif.").
Proof.
  intros Hnot. split; [apply fileExtension_spec|].
  rewrite validate_some, (format_unknown p f Hnot). reflexivity.
Qed.

Lemma unknown_extension_rejected_witness :
  validate (props_with (Some ["exe"]) (Some 1)) (Some c_exe) =
  Rejected "Unsupported file format: .exe. Supported formats are: jpg, jpeg, png, webp, gif.".
Proof.
  refine (proj2 (unknown_extension_rejected (props_with (Some ["exe"]) (Some 1)) c_exe _)).
  vm_compute. intuition discriminate.
Defined.

(** C6: a file whose derived extension is in the built-in set but not in the
    list the host passed is rejected with the message that cites that list;
    without a list the format test passes for every built-in extension. *)
Theorem policy_rule (p : Props) (f : File) :
  spec_builtin (spec_derived_extension f) ->
  (forall l, supportedFormats p = Some l -> ~ In (spec_derived_extension f) l ->
     validate p (Some f) =
     Rejected ("Unsupported file format: ." ++ spec_derived_extension f
               ++ ". Allowed formats are: " ++ JS.join ", " l ++ "."))
  /\ (supportedFormats p = None -> test_fileFormat p (Some f) = Pass).
Proof.
  intros Hb.
  pose proof (proj1 (builtin_includes _) Hb) as Hinc.
  pose proof (builtin_truthy _ Hb) as Htr.
  split.
  - intros l Hl Hnin.
    rewrite validate_some, test_fileFormat_some. cbn zeta.
    unfold isImageFormat, isAllowedFormat, not_allowed_msg, allowedFormats.
    rewrite Hinc, Htr, Hl. cbn [negb JS.or_else JS.truthy_array].
    apply includes_not_In in Hnin. rewrite Hnin. reflexivity.
  - apply format_without_list. exact Hb.
Qed.

Lemma policy_rule_witness :
  validate (props_with (Some ["png"]) None) (Some a_jpg) =
    Rejected "Unsupported file format: .jpg. Allowed formats are: png."
  /\ test_fileFormat default_props (Some a_jpg) = Pass.
Proof.
  split.
  - refine (proj1 (policy_rule (props_with (Some ["png"]) None) a_jpg _) ["png"] _ _).
    + vm_compute. tauto.
    + reflexivity.
    + vm_compute. intuition discriminate.
  - refine (proj2 (policy_rule default_props a_jpg _) _).
    + vm_compute. tauto.
    + reflexivity.
Defined.

(** C10: a name without '.' is its own extension: a file named "png" is
    accepted (within the size limit, no list passed), a file named
    "document" is rejected as an unsupported format. *)
Theorem name_without_dot (p : Props) (nm : string) (sz : N) :
  JS.contains "." nm = false ->
  fileExtension {| name := nm; size := sz |} = Some (JS.toLowerCase nm)
  /\ (nm = "png" -> supportedFormats p = None -> Z.of_N sz <= maxFileSize p ->
      validate p (Some {| name := nm; size := sz |}) = Accepted)
  /\ (nm = "document" ->
      validate p (Some {| name := nm; size := sz |}) =
      Rejected "Unsupported file format: .document. Supported formats are: jpg, jpeg, png, webp, gif.").
Proof.
  intros Hno.
  assert (Hext : fileExtension {| name := nm; size := sz |} = Some (JS.toLowerCase nm)).
  { rewrite fileExtension_spec. unfold spec_derived_extension. cbn [name].
    rewrite (after_last_dot_no_dot nm Hno). reflexivity. }
  split; [exact Hext|]. split.
  - intros -> Hnone Hsz.
    rewrite validate_some.
    assert (Hfmt : test_fileFormat p (Some {| name := "png"; size := sz |}) = Pass).
    { apply format_without_list; [|exact Hnone]. vm_compute. tauto. }
    rewrite Hfmt. unfold test_fileSize. cbn [size].
    destruct (Z.gtb_spec (Z.of_N sz) (maxFileSize p)); [lia|reflexivity].
  - intros ->.
    rewrite validate_some, format_unknown; [reflexivity|].
    vm_compute. intuition discriminate.
Qed.

Lemma name_without_dot_witness :
  fileExtension {| name := "png"; size := 4096 |} = Some "png"
  /\ validate default_props (Some {| name := "png"; size := 4096 |}) = Accepted
  /\ validate default_props (Some {| name := "document"; size := 4096 |}) =
     Rejected "Unsupported file format: .document. Supported formats are: jpg, jpeg, png, webp, gif.".
Proof.
  split; [|split].
  - exact (proj1 (name_without_dot default_props "png" 4096 eq_refl)).
  - refine (proj1 (proj2 (name_without_dot default_props "png" 4096 eq_refl)) eq_refl eq_refl _).
    vm_compute. discriminate.
  - exact (proj2 (proj2 (name_without_dot default_props "document" 4096 eq_refl)) eq_refl).
Defined.

(** C3, as the specification states it, fails: the list ["PNG"] holds an
    entry equal to the extension "png" up to letter case, and the policy rule
    rejects the file. *)
Lemma upper_case_entry_does_not_match :
  (exists x, In x ["PNG"] /\ spec_eq_up_to_case x (spec_derived_extension a_png))
  /\ isAllowedFormat (props_with (Some ["PNG"]) None) (fileExtension a_png) = false
  /\ validate (props_with (Some ["PNG"]) None) (Some a_png) =
     Rejected "Unsupported file format: .png. Allowed formats are: PNG.".
Proof.
  split; [|split]; try reflexivity.
  exists "PNG". split; [left; reflexivity | reflexivity].
Qed.

(** C3, amended: the policy rule compares the lowercased extension with the
    entries of the list as they are written.  It accepts exactly when some
    entry is the lowercased extension (or the extension is empty, which the
    rule before it rejects).  So for a list written in lower case it accepts
    exactly when the extension equals an entry up to letter case; and an
    entry that is not in lower case matches no file: when no lower-case
    entry is the extension, the rule rejects. *)
Theorem policy_membership (p : Props) (l : list string) (f : File) :
  supportedFormats p = Some l ->
  (isAllowedFormat p (fileExtension f) = true <->
     In (spec_derived_extension f) l \/ spec_derived_extension f = "")
  /\ ((forall x, In x l -> JS.toLowerCase x = x) ->
      ((exists x, In x l /\ spec_eq_up_to_case x (spec_after_last_dot (name f))) <->
       In (spec_derived_extension f) l))
  /\ ((forall x, In x l -> JS.toLowerCase x = x -> x <> spec_derived_extension f) ->
      spec_derived_extension f <> "" ->
      isAllowedFormat p (fileExtension f) = false).
Proof.
  intros Hl.
  assert (Hiff : isAllowedFormat p (fileExtension f) = true <->
                 In (spec_derived_extension f) l \/ spec_derived_extension f = "").
  { rewrite fileExtension_spec.
    unfold isAllowedFormat, allowedFormats. rewrite Hl.
    cbn [JS.or_else JS.truthy_array].
    destruct (spec_derived_extension f) as [|ch ext] eqn:Hext; cbn [JS.truthy_string].
    - split; [intros _; right; reflexivity | reflexivity].
    - rewrite includes_In. split; [intros H; left; exact H|].
      intros [H|H]; [exact H | discriminate H]. }
  split; [exact Hiff|]. split.
  - intros Hlow. unfold spec_eq_up_to_case, spec_derived_extension. split.
    + intros (x & Hx & Heq). rewrite (Hlow x Hx) in Heq. rewrite <- Heq. exact Hx.
    + intros Hin. exists (JS.toLowerCase (spec_after_last_dot (name f))).
      split; [exact Hin | apply toLowerCase_idem].
  - intros Hnone Hne.
    destruct (isAllowedFormat p (fileExtension f)) eqn:Hrule; [|reflexivity].
    exfalso. destruct (proj1 Hiff eq_refl) as [Hin|Hempty]; [|exact (Hne Hempty)].
    apply (Hnone _ Hin); [|reflexivity].
    unfold spec_derived_extension. apply toLowerCase_idem.
Qed.

Lemma policy_membership_witness :
  isAllowedFormat (props_with (Some ["jpg"; "png"]) None) (fileExtension upper_png) = true
  /\ isAllowedFormat (props_with (Some ["PNG"]) None) (fileExtension a_png) = false
  /\ isAllowedFormat (props_with (Some ["PNG"]) None) (fileExtension upper_png) = false.
Proof.
  pose proof (policy_membership (props_with (Some ["jpg"; "png"]) None)
                ["jpg"; "png"] upper_png eq_refl) as (Hiff & _ & _).
  pose proof (policy_membership (props_with (Some ["PNG"]) None)
                ["PNG"] a_png eq_refl) as (_ & _ & Hrej).
  pose proof (policy_membership (props_with (Some ["PNG"]) None)
                ["PNG"] upper_png eq_refl) as (_ & _ & Hrej').
  split; [|split].
  - apply (proj2 Hiff). left. right. left. reflexivity.
  - apply Hrej; [|vm_compute; discriminate].
    intros x [<-|[]] Hlow. vm_compute in Hlow. discriminate Hlow.
  - apply Hrej'; [|vm_compute; discriminate].
    intros x [<-|[]] Hlow. vm_compute in Hlow. discriminate Hlow.
Defined.

(** C7, as the specification states it, fails: a configured maximum of 0
    is falsy, the default takes its place, and a one-byte file, larger than
    the configured maximum, is accepted. *)
Lemma zero_limit_is_ignored :
  test_fileFormat (props_with None (Some 0)) (Some one_byte_png) = Pass
  /\ spec_configured_maximum (props_with None (Some 0)) < Z.of_N (size one_byte_png)
  /\ validate (props_with None (Some 0)) (Some one_byte_png) = Accepted.
Proof. repeat split. Qed.

(** C7, amended: the limit in force is [maxSize] when the host passed a
    non-zero one and 5 x 1024 x 1024 otherwise.  A file that passes the
    format test is rejected exactly when its size exceeds the limit in force
    (equal is accepted); the message gives the size in MiB rounded to the
    nearest hundredth and the limit in MiB as the number prints. *)
Theorem size_rule (p : Props) (f : File) :
  test_fileFormat p (Some f) = Pass ->
  maxFileSize p =
    match maxSize p with
    | Some m => if m =? 0 then 5 * 1024 * 1024 else m
    | None => 5 * 1024 * 1024
    end
  /\ (Z.of_N (size f) <= maxFileSize p -> validate p (Some f) = Accepted)
  /\ (maxFileSize p < Z.of_N (size f) ->
      validate p (Some f) =
      Rejected ("File size is too large: " ++ JS.toFixed2 (Z.of_N (size f))
                ++ "MB. Maximum allowed size is "
                ++ JS.Number_toString (maxFileSize p) ++ "MB."))
  /\ 2 * Z.abs (100 * Z.of_N (size f) - JS.MiB * JS.hundredths (Z.of_N (size f)))
     <= JS.MiB.
Proof.
  intros Hfmt. split; [apply maxFileSize_cases|].
  rewrite validate_some, Hfmt. unfold test_fileSize.
  repeat split.
  - intros Hle. destruct (Z.gtb_spec (Z.of_N (size f)) (maxFileSize p)); [lia|reflexivity].
  - intros Hgt. destruct (Z.gtb_spec (Z.of_N (size f)) (maxFileSize p)); [reflexivity|lia].
  - apply hundredths_nearest.
Qed.

Lemma size_rule_witness :
  validate default_props (Some b_gif) =
    Rejected "File size is too large: 6.00MB. Maximum allowed size is 5MB."
  /\ validate default_props (Some {| name := "edge.gif"; size := 5 * 1024 * 1024 |}) = Accepted
  /\ maxFileSize default_props = 5 * 1024 * 1024.
Proof.
  split; [|split].
  - refine (proj1 (proj2 (proj2 (size_rule default_props b_gif eq_refl))) _).
    vm_compute. reflexivity.
  - refine (proj1 (proj2 (size_rule default_props
                            {| name := "edge.gif"; size := 5 * 1024 * 1024 |} eq_refl)) _).
    vm_compute. discriminate.
  - exact (proj1 (size_rule default_props b_gif eq_refl)).
Defined.

(** The two numbers of the message are printed differently: the size with
    two decimals, the limit with all the digits of the quotient. *)
Example size_message_examples :
  validate (props_with None (Some 1234567)) (Some b_gif) =
    Rejected "File size is too large: 6.00MB. Maximum allowed size is 1.1773748397827148MB."
  /\ validate (props_with None (Some 1572864))
       (Some {| name := "big.jpeg"; size := 1577000 |}) =
    Rejected "File size is too large: 1.50MB. Maximum allowed size is 1.5MB."
  /\ JS.Number_toString 1 = "9.5367431640625e-7"
  /\ JS.toFixed2 5243 = "0.01" /\ JS.toFixed2 5242 = "0.00".
Proof. repeat split; vm_compute; reflexivity. Qed.

(** ** The controller *)

Lemma select_without_file (e : Event) (c : Component) :
  extract_file e = None -> select e c = (c, []).
Proof. intros H. unfold select. rewrite H. reflexivity. Qed.

(** C4: when validation fails, [select] keeps [image] and [touched], stores
    the reason in [error] and emits one [error] event with that reason and
    nothing else; the same through [handleChange] and [handleDrop]. *)
Theorem rejected_select (c : Component) (e : Event) (f : File) (msg : string) :
  extract_file e = Some f ->
  validate (props c) (Some f) = Rejected msg ->
  select e c =
    (with_state {| image := image (state c); touched := touched (state c);
                   error := Some msg |} c,
     [EmitError msg])
  /\ handleChange e c = select e c
  /\ state (fst (handleDrop e c)) =
     {| image := image (state c); touched := touched (state c); error := Some msg |}
  /\ snd (handleDrop e c) = [EmitError msg].
Proof.
  intros He Hv. unfold handleChange, handleDrop, select. rewrite He.
  cbn [props with_dragging]. rewrite Hv. repeat split.
Qed.

Lemma rejected_select_witness :
  select (picker_event [c_exe]) preview_shown =
  (with_state {| image := Some photo_png; touched := true;
                 error := Some "Unsupported file format: .exe. Supported formats are: jpg, jpeg, png, webp, gif." |}
     preview_shown,
   [EmitError "Unsupported file format: .exe. Supported formats are: jpg, jpeg, png, webp, gif."]).
Proof.
  exact (proj1 (rejected_select preview_shown (picker_event [c_exe]) c_exe
                  "Unsupported file format: .exe. Supported formats are: jpg, jpeg, png, webp, gif."
                  eq_refl eq_refl)).
Defined.

(** C8: an input event without a file, from the picker or from a drop,
    changes nothing in the component and emits nothing. *)
Theorem empty_event_is_noop (c : Component) :
  select (picker_event []) c = (c, [])
  /\ select (drop_event []) c = (c, [])
  /\ select {| target_files := None; dataTransfer := DragEvent None |} c = (c, [])
  /\ handleChange (picker_event []) c = (c, [])
  /\ state (fst (handleDrop (drop_event []) c)) = state c
  /\ snd (handleDrop (drop_event []) c) = [].
Proof. repeat split. Qed.

(** C9: [reset] can be called in every state; the state after it is the
    empty state and one [reset] event is emitted, so a second [reset] gives
    the same state; on the empty state the component is left as it was. *)
Theorem reset_gives_empty_state (c : Component) :
  state (fst (reset c)) = initial_state
  /\ snd (reset c) = [EmitReset]
  /\ state (fst (reset (fst (reset c)))) = state (fst (reset c))
  /\ state (fst (handleReset c)) = initial_state
  /\ snd (handleReset c) = [EmitReset]
  /\ (state c = initial_state -> reset c = (c, [EmitReset])).
Proof.
  repeat split.
  intros H. destruct c as [p s d u i]. cbn [state] in H. subst s. reflexivity.
Qed.

Lemma reset_gives_empty_state_witness :
  reset (mount default_props) = (mount default_props, [EmitReset])
  /\ state (fst (reset picked_then_rejected)) = initial_state.
Proof.
  split.
  - exact (proj2 (proj2 (proj2 (proj2 (proj2
             (reset_gives_empty_state (mount default_props)))))) eq_refl).
  - exact (proj1 (reset_gives_empty_state picked_then_rejected)).
Defined.

(** *** What the state records *)

Lemma records_history_weaken (p : Props) (la : option File) (S S' : Prop)
    (c : Component) :
  (S -> S') -> records_history p la S c -> records_history p la S' c.
Proof.
  intros HS (Hf & Hm & He & Ht & Hi).
  split; [exact Hf|]. split; [exact Hm|]. split; [exact He|].
  split; [intros H; exact (HS (Ht H)) | exact Hi].
Qed.

Lemma select_records (p : Props) (la : option File) (S : Prop) (e : Event)
    (c : Component) :
  records_history p la S c ->
  records_history p
    (match extract_file e with Some f => Some f | None => la end)
    (S \/ exists f, extract_file e = Some f /\ validate p (Some f) = Accepted)
    (fst (select e c)).
Proof.
  intros H. unfold select.
  destruct (extract_file e) as [f|] eqn:He.
  - destruct H as (Hf & Hm & Herr & Ht & Hi).
    rewrite (validate_props_ext (props c) p (Some f) Hf Hm).
    destruct (validate p (Some f)) as [|msg] eqn:Hv; cbn [fst];
      unfold records_history; cbn [props state with_state image touched error].
    + split; [exact Hf|]. split; [exact Hm|]. split; [discriminate|].
      split; [intros _; right; exists f; auto|].
      intros f' Hf'. injection Hf' as <-. auto.
    + split; [exact Hf|]. split; [exact Hm|]. split.
      * intros m Hmsg. injection Hmsg as <-. exists f. auto.
      * split; [intros Htouched; left; exact (Ht Htouched) | exact Hi].
  - cbn [fst]. apply (records_history_weaken p la S); [tauto | exact H].
Qed.

Lemma dragging_records (p : Props) (la : option File) (S : Prop) (b : bool)
    (c : Component) :
  records_history p la S c -> records_history p la S (with_dragging b c).
Proof. intros H. exact H. Qed.

Lemma step_records (p : Props) (la : option File) (S : Prop) (a : Action)
    (c : Component) :
  records_history p la S c ->
  records_history p
    (match attempt a with Some f => Some f | None => la end)
    (S \/ accepted_attempt p a)
    (fst (step a c)).
Proof.
  intros H. destruct a as [e|e|b| | |newSrc| ]; cbn [step attempt].
  - apply select_records. exact H.
  - unfold handleDrop. apply select_records, dragging_records. exact H.
  - apply (records_history_weaken p la S); [tauto | exact H].
  - destruct H as (Hf & Hm & _). unfold handleReset, reset.
    cbn [fst]. unfold records_history.
    cbn [props state with_state image touched error].
    assert (Hp : forall c', props c' = props c ->
       supportedFormats (props c') = supportedFormats p
       /\ maxSize (props c') = maxSize p) by (intros c' ->; auto).
    destruct (image (state (with_dragging false c)));
      (split; [apply Hp; reflexivity|]); (split; [apply Hp; reflexivity|]);
      repeat split; discriminate.
  - apply (records_history_weaken p la S); [tauto | exact H].
  - apply (records_history_weaken p la S); [tauto |].
    unfold src_changed.
    destruct (same_src newSrc (src (props c))); [exact H|].
    destruct H as (Hf & Hm & Herr & Ht & Hi).
    destruct newSrc as [s|]; [destruct (JS.truthy_string s)|]; cbn [fst];
      unfold records_history;
      cbn [props state with_state with_props set_src supportedFormats maxSize
           image touched error];
      (split; [exact Hf|]); (split; [exact Hm|]); (split; [exact Herr|]);
      (split; [exact Ht|]); try exact Hi; discriminate.
  - apply (records_history_weaken p la S); [tauto |].
    unfold render.
    destruct H as (Hf & Hm & Herr & Ht & Hi).
    destruct (image (state c)) as [f|] eqn:Himg.
    + unfold previewUrl. rewrite Himg. cbn [createObjectURL fst].
      unfold records_history.
      cbn [props state with_img with_urls image touched error].
      rewrite Himg. auto.
    + destruct (src (props c)) as [s|]; [destruct (JS.truthy_string s)|];
        unfold previewUrl; rewrite ?Himg; cbn [fst];
        unfold records_history;
        cbn [props state with_img image touched error];
        rewrite ?Himg; auto.
Qed.

Lemma run_records (p : Props) (acts : list Action) :
  forall (la : option File) (S : Prop) (c : Component),
    records_history p la S c ->
    records_history p (last_attempt acts la)
      (S \/ Exists (accepted_attempt p) acts) (fst (run acts c)).
Proof.
  induction acts as [|a rest IH]; intros la S c H; cbn [run last_attempt].
  - cbn [fst]. apply (records_history_weaken p la S); [tauto | exact H].
  - pose proof (step_records p la S a c H) as Hstep.
    destruct (step a c) as [c1 out1]. cbn [fst] in Hstep.
    pose proof (IH _ _ c1 Hstep) as Hrest.
    destruct (run rest c1) as [c2 out2]. cbn [fst] in Hrest |- *.
    eapply records_history_weaken; [|exact Hrest].
    intros [[HS|Ha]|Hex]; [left; exact HS | right; left; exact Ha
                          | right; right; exact Hex].
Qed.

Lemma mount_records (p : Props) : records_history p None False (mount p).
Proof.
  split; [reflexivity|]. split; [reflexivity|].
  split; [|split]; cbn; intros; discriminate.
Qed.

(** C1, as the specification states it, fails: after a valid file and then a
    rejected one the component holds the first file together with the error
    of the second. *)
Lemma rejected_attempt_keeps_file :
  image (state picked_then_rejected) = Some photo_png
  /\ error (state picked_then_rejected) =
     Some "Unsupported file format: .exe. Supported formats are: jpg, jpeg, png, webp, gif."
  /\ ~ spec_file_implies_clean (state picked_then_rejected).
Proof.
  split; [reflexivity|]. split; [reflexivity|].
  intros H. destruct H as [_ Herr]; [discriminate|]. discriminate Herr.
Qed.

(** C1, amended: after every sequence of actions on a mounted component,
    [error] is set only if the most recent selection attempt was rejected,
    with that reason; [touched] is true only if some attempt was accepted;
    [image] is set only if [touched] is true, and holds a file that passes
    validation.  ([error] may be set while [image] is.) *)
Theorem state_records_history (p : Props) (acts : list Action) :
  (forall msg, error (state (fst (run acts (mount p)))) = Some msg ->
     exists f, last_attempt acts None = Some f
               /\ validate p (Some f) = Rejected msg)
  /\ (touched (state (fst (run acts (mount p)))) = true ->
      Exists (accepted_attempt p) acts)
  /\ (forall f, image (state (fst (run acts (mount p)))) = Some f ->
      touched (state (fst (run acts (mount p)))) = true
      /\ validate p (Some f) = Accepted).
Proof.
  destruct (run_records p acts None False (mount p) (mount_records p))
    as (_ & _ & Herr & Ht & Hi).
  split; [exact Herr|]. split; [|exact Hi].
  intros H. destruct (Ht H) as [[]|Hex]. exact Hex.
Qed.

Lemma state_records_history_witness :
  (exists f, last_attempt [Change (picker_event [photo_png]);
                           DragHover true;
                           Drop (drop_event [c_exe]); Render] None = Some f
             /\ validate default_props (Some f) =
                Rejected "Unsupported file format: .exe. Supported formats are: jpg, jpeg, png, webp, gif.")
  /\ validate default_props (Some photo_png) = Accepted.
Proof.
  pose proof (state_records_history default_props
                [Change (picker_event [photo_png]); DragHover true;
                 Drop (drop_event [c_exe]); Render]) as (Herr & _ & Hi).
  split.
  - apply Herr. reflexivity.
  - apply (Hi photo_png). reflexivity.
Defined.

(** *** Object URLs *)

Lemma createObjectURL_wf (f : File) (s : URLStore) :
  store_wf s -> store_wf (snd (createObjectURL f s)).
Proof.
  intros Hwf u g. cbn [createObjectURL snd registered next_id].
  destruct (decide (next_id s = u)) as [<-|Hne].
  - intros _. lia.
  - rewrite lookup_insert_ne by exact Hne. intros H. pose proof (Hwf u g H). lia.
Qed.

Lemma revokeObjectURL_wf (u : nat) (s : URLStore) :
  store_wf s -> store_wf (revokeObjectURL u s).
Proof.
  intros Hwf v g. cbn [revokeObjectURL registered next_id].
  intros H. apply (Hwf v g).
  destruct (decide (u = v)) as [->|Hne].
  - rewrite lookup_delete_eq in H. discriminate.
  - rewrite lookup_delete_ne in H by exact Hne. exact H.
Qed.

(** The URL that [reset] revokes is the one it has just created, so every
    URL registered before the call is registered after it. *)
Lemma reset_releases_nothing (c : Component) (u : nat) (f : File) :
  store_wf (urls c) ->
  registered (urls c) !! u = Some f ->
  registered (urls (fst (reset c))) !! u = Some f.
Proof.
  intros Hwf Hu. unfold reset. cbn [fst].
  destruct (image (state c)) as [g|]; cbn [urls with_state]; [|exact Hu].
  cbn [createObjectURL with_urls urls revokeObjectURL registered].
  pose proof (Hwf u f Hu) as Hlt.
  rewrite lookup_delete_ne by lia.
  rewrite lookup_insert_ne by lia. exact Hu.
Qed.

Lemma step_store_wf (a : Action) (c : Component) :
  store_wf (urls c) -> store_wf (urls (fst (step a c))).
Proof.
  intros Hwf.
  assert (Hsel : forall e c', store_wf (urls c') -> store_wf (urls (fst (select e c')))).
  { intros e c' H. unfold select.
    destruct (extract_file e); [|exact H].
    destruct (validate (props c') _); exact H. }
  assert (Hreset : forall c', store_wf (urls c') -> store_wf (urls (fst (reset c')))).
  { intros c' H. unfold reset. cbn [fst].
    destruct (image (state c')) as [g|]; cbn [urls with_state]; [|exact H].
    cbn [with_urls urls].
    apply revokeObjectURL_wf. exact (createObjectURL_wf g (urls c') H). }
  destruct a as [e|e|b| | |newSrc| ]; cbn [step].
  - apply Hsel, Hwf.
  - apply Hsel, Hwf.
  - exact Hwf.
  - apply Hreset, Hwf.
  - exact Hwf.
  - unfold src_changed.
    destruct (same_src newSrc (src (props c))); [exact Hwf|].
    destruct newSrc as [s|]; [destruct (JS.truthy_string s)|]; exact Hwf.
  - unfold render, previewUrl.
    destruct (image (state c)) as [g|].
    + cbn [fst with_img urls with_urls].
      exact (createObjectURL_wf g (urls c) Hwf).
    + destruct (src (props c)) as [s|]; [destruct (JS.truthy_string s)|]; exact Hwf.
Qed.

Lemma run_store_wf (acts : list Action) :
  forall c, store_wf (urls c) -> store_wf (urls (fst (run acts c))).
Proof.
  induction acts as [|a rest IH]; intros c Hwf; cbn [run]; [exact Hwf|].
  pose proof (step_store_wf a c Hwf) as Hstep.
  destruct (step a c) as [c1 out1]. cbn [fst] in Hstep.
  pose proof (IH c1 Hstep) as Hrest.
  destruct (run rest c1) as [c2 out2]. exact Hrest.
Qed.

Lemma mount_store_wf (p : Props) : store_wf (urls (mount p)).
Proof. intros u f H. cbn in H. rewrite lookup_empty in H. discriminate. Qed.

(** In every reachable component, a click on the reset control leaves every
    registered object URL registered. *)
Lemma reachable_reset_releases_nothing (p : Props) (acts : list Action)
    (u : nat) (f : File) :
  registered (urls (fst (run acts (mount p)))) !! u = Some f ->
  registered (urls (fst (handleReset (fst (run acts (mount p)))))) !! u = Some f.
Proof.
  intros H. unfold handleReset.
  apply reset_releases_nothing; [|exact H].
  exact (run_store_wf acts (mount p) (mount_store_wf p)).
Qed.

(** C2 (the code does not do this): after a valid file was picked and its
    preview rendered under object URL 0, [handleReset] empties the state
    and emits one [reset] event, and URL 0 is still registered for the file:
    the URL revoked was a new one (URL 1), created inside [reset]. *)
Theorem reset_leaves_preview_url_registered :
  image (state preview_shown) = Some photo_png
  /\ img_src preview_shown = Some (BlobUrl 0)
  /\ registered (urls preview_shown) !! 0%nat = Some photo_png
  /\ state (fst (handleReset preview_shown)) = initial_state
  /\ snd (handleReset preview_shown) = [EmitReset]
  /\ registered (urls (fst (handleReset preview_shown))) !! 0%nat = Some photo_png
  /\ registered (urls (fst (handleReset preview_shown))) !! 1%nat = None
  /\ next_id (urls (fst (handleReset preview_shown))) = 2%nat.
Proof. repeat split; vm_compute; reflexivity. Qed.

(** ** More on the validator *)

Lemma contains_app_sep (c : ascii) (pre rest : string) :
  JS.contains c (pre ++ String c rest) = true.
Proof.
  induction pre as [|d pre IH]; simpl.
  - rewrite Ascii.eqb_refl. reflexivity.
  - rewrite IH. apply orb_true_r.
Qed.

Lemma after_last_dot_app (pre e : string) :
  JS.contains "." e = false -> spec_after_last_dot (pre ++ String "." e) = e.
Proof.
  intros He. induction pre as [|d pre IH].
  - simpl. rewrite He. reflexivity.
  - change (String d pre ++ String "." e) with (String d (pre ++ String "." e)).
    cbn [spec_after_last_dot]. rewrite contains_app_sep. exact IH.
Qed.

Lemma lower_char_dot (c : ascii) :
  Ascii.eqb (JS.lower_char c) "." = Ascii.eqb c ".".
Proof. destruct c as [[] [] [] [] [] [] [] []]; reflexivity. Qed.

Lemma contains_dot_lower (s : string) :
  JS.contains "." (JS.toLowerCase s) = JS.contains "." s.
Proof.
  induction s as [|c rest IH]; simpl; [reflexivity|].
  rewrite lower_char_dot, IH. reflexivity.
Qed.

Lemma after_last_dot_lower (s : string) :
  spec_after_last_dot (JS.toLowerCase s) = JS.toLowerCase (spec_after_last_dot s).
Proof.
  induction s as [|c rest IH]; [reflexivity|].
  cbn [JS.toLowerCase spec_after_last_dot].
  rewrite contains_dot_lower, lower_char_dot.
  destruct (JS.contains "." rest); [exact IH|].
  destruct (Ascii.eqb c "."); reflexivity.
Qed.

Lemma upper_char_lower (c : ascii) :
  JS.lower_char (JS.upper_char c) = JS.lower_char c
  /\ Ascii.eqb (JS.upper_char c) "." = Ascii.eqb c ".".
Proof. destruct c as [[] [] [] [] [] [] [] []]; split; reflexivity. Qed.

Lemma contains_dot_upper (s : string) :
  JS.contains "." (JS.toUpperCase s) = JS.contains "." s.
Proof.
  induction s as [|c rest IH]; simpl; [reflexivity|].
  rewrite (proj2 (upper_char_lower c)), IH. reflexivity.
Qed.

Lemma lower_after_last_dot_upper (s : string) :
  JS.toLowerCase (spec_after_last_dot (JS.toUpperCase s))
  = JS.toLowerCase (spec_after_last_dot s).
Proof.
  induction s as [|c rest IH]; [reflexivity|].
  cbn [JS.toUpperCase spec_after_last_dot].
  rewrite contains_dot_upper, (proj2 (upper_char_lower c)).
  destruct (JS.contains "." rest); [exact IH|].
  destruct (Ascii.eqb c ".").
  - clear IH. induction rest as [|d rest IH]; simpl; [reflexivity|].
    rewrite (proj1 (upper_char_lower d)), IH. reflexivity.
  - cbn [JS.toLowerCase]. rewrite (proj1 (upper_char_lower c)). f_equal.
    clear IH. induction rest as [|d rest IH]; simpl; [reflexivity|].
    rewrite (proj1 (upper_char_lower d)), IH. reflexivity.
Qed.

Lemma validate_same_extension_size (p : Props) (f g : File) :
  spec_derived_extension f = spec_derived_extension g ->
  size f = size g ->
  validate p (Some f) = validate p (Some g).
Proof.
  intros Hext Hsize.
  rewrite !validate_some, !test_fileFormat_some. cbn zeta.
  unfold test_fileSize, too_large_msg. rewrite Hext, Hsize. reflexivity.
Qed.

(** X1: a file is accepted exactly when its derived extension is in the
    built-in list and in the list in force, and its size does not exceed
    the limit in force. *)
Theorem accepted_iff (p : Props) (f : File) :
  validate p (Some f) = Accepted <->
  spec_builtin (spec_derived_extension f)
  /\ In (spec_derived_extension f) (allowedFormats p)
  /\ Z.of_N (size f) <= maxFileSize p.
Proof.
  rewrite validate_some, test_fileFormat_some. cbn zeta.
  unfold isImageFormat, isAllowedFormat, test_fileSize.
  destruct (JS.includes validImageFormats (spec_derived_extension f)) eqn:Hb;
    cbn [negb].
  - pose proof (proj2 (builtin_includes _) Hb) as Hbuilt.
    rewrite (builtin_truthy _ Hbuilt).
    destruct (JS.includes (allowedFormats p) (spec_derived_extension f)) eqn:Ha;
      cbn [negb].
    + apply includes_In in Ha.
      destruct (Z.gtb_spec (Z.of_N (size f)) (maxFileSize p)).
      * split; [discriminate | intros (_ & _ & Hle); lia].
      * split; [intros _; repeat split; [exact Hbuilt | exact Ha | lia] | reflexivity].
    + apply includes_not_In in Ha.
      split; [discriminate | intros (_ & Hin & _); contradiction].
  - split; [discriminate|].
    intros (Hbuilt & _). apply builtin_includes in Hbuilt. congruence.
Qed.

Lemma accepted_iff_witness :
  validate (props_with (Some ["png"; "bmp"]) (Some 4096)) (Some a_png) = Accepted
  /\ ~ In (spec_derived_extension a_jpg) (allowedFormats (props_with (Some ["png"]) None)).
Proof.
  split.
  - apply (proj2 (accepted_iff (props_with (Some ["png"; "bmp"]) (Some 4096)) a_png)).
    split; [vm_compute; tauto|]. split; [vm_compute; tauto | vm_compute; discriminate].
  - intros Hin.
    assert (Hacc : validate (props_with (Some ["png"]) None) (Some a_jpg) = Accepted).
    { apply (proj2 (accepted_iff (props_with (Some ["png"]) None) a_jpg)).
      split; [vm_compute; tauto|]. split; [exact Hin | vm_compute; discriminate]. }
    discriminate Hacc.
Defined.

(** X2: for a name [pre.e] where [e] has no '.', the extension the validator
    derives is [e] in lower case, whatever [pre] is: also for a name that
    starts with the dot, and the empty string for a name that ends in it. *)
Theorem extension_of_dotted_name (pre e : string) (sz : N) :
  JS.contains "." e = false ->
  fileExtension {| name := pre ++ String "." e; size := sz |} = Some (JS.toLowerCase e).
Proof.
  intros He. rewrite fileExtension_spec. unfold spec_derived_extension.
  cbn [name]. rewrite (after_last_dot_app pre e He). reflexivity.
Qed.

Lemma extension_of_dotted_name_witness :
  fileExtension {| name := "archive.tar.GZ"; size := 1 |} = Some "gz"
  /\ fileExtension {| name := ".png"; size := 1 |} = Some "png"
  /\ fileExtension {| name := "notes."; size := 1 |} = Some "".
Proof.
  split; [|split].
  - exact (extension_of_dotted_name "archive.tar" "GZ" 1 eq_refl).
  - exact (extension_of_dotted_name "" "png" 1 eq_refl).
  - exact (extension_of_dotted_name "notes" "" 1 eq_refl).
Defined.

(** X3: the outcome of validation, message included, depends on the file
    only through its extension up to letter case and its size; so, for an
    ASCII name, writing the name in upper or in lower case changes nothing. *)
Theorem validation_ignores_case (p : Props) (f g : File) :
  spec_eq_up_to_case (spec_after_last_dot (name f)) (spec_after_last_dot (name g)) ->
  size f = size g ->
  validate p (Some f) = validate p (Some g)
  /\ (JS.is_ascii (name f) = true ->
      validate p (Some {| name := JS.toUpperCase (name f); size := size f |})
      = validate p (Some f)
      /\ validate p (Some {| name := JS.toLowerCase (name f); size := size f |})
         = validate p (Some f)).
Proof.
  intros Hext Hsize. split; [|intros _; split].
  - apply validate_same_extension_size; [exact Hext | exact Hsize].
  - apply validate_same_extension_size; [|reflexivity].
    unfold spec_derived_extension. cbn [name]. apply lower_after_last_dot_upper.
  - apply validate_same_extension_size; [|reflexivity].
    unfold spec_derived_extension. cbn [name].
    rewrite after_last_dot_lower. apply toLowerCase_idem.
Qed.

Lemma validation_ignores_case_witness :
  validate (props_with (Some ["png"]) None) (Some upper_png)
  = validate (props_with (Some ["png"]) None) (Some a_png)
  /\ validate (props_with (Some ["png"]) None) (Some {| name := "A.PNG"; size := 1024 |})
     = validate (props_with (Some ["png"]) None) (Some a_png).
Proof.
  split.
  - exact (proj1 (validation_ignores_case (props_with (Some ["png"]) None)
                    upper_png a_png eq_refl eq_refl)).
  - exact (proj1 (proj2 (validation_ignores_case (props_with (Some ["png"]) None)
                           a_png a_png eq_refl eq_refl) eq_refl)).
Defined.

Lemma accepted_allowed (p : Props) (f : File) :
  validate p (Some f) = Accepted ->
  In (spec_derived_extension f) (allowedFormats p).
Proof.
  rewrite validate_some, test_fileFormat_some. cbn zeta.
  unfold isImageFormat, isAllowedFormat.
  destruct (JS.includes validImageFormats (spec_derived_extension f)) eqn:Hb;
    cbn [negb]; [|discriminate].
  rewrite (builtin_truthy _ (proj2 (builtin_includes _) Hb)).
  destruct (JS.includes (allowedFormats p) (spec_derived_extension f)) eqn:Ha;
    cbn [negb]; [|discriminate].
  intros _. apply includes_In. exact Ha.
Qed.

(** X4: an empty [supportedFormats] array is truthy, so it is the list in
    force: no file at all is accepted, while the annotation, which tests
    the length of the array, names the built-in formats. *)
Theorem empty_list_rejects_all (p : Props) (f : File) :
  supportedFormats p = Some [] ->
  validate p (Some f) <> Accepted
  /\ (spec_builtin (spec_derived_extension f) ->
      validate p (Some f) =
      Rejected ("Unsupported file format: ." ++ spec_derived_extension f
                ++ ". Allowed formats are: ."))
  /\ annotation_formats p = "JPG, JPEG, PNG, WEBP, GIF".
Proof.
  intros Hl. split; [|split].
  - intros Hacc. apply accepted_allowed in Hacc.
    unfold allowedFormats in Hacc. rewrite Hl in Hacc. exact Hacc.
  - intros Hb.
    rewrite validate_some, test_fileFormat_some. cbn zeta.
    unfold isImageFormat, isAllowedFormat, not_allowed_msg, allowedFormats.
    rewrite (proj1 (builtin_includes _) Hb), (builtin_truthy _ Hb), Hl.
    reflexivity.
  - unfold annotation_formats. rewrite Hl. reflexivity.
Qed.

Lemma empty_list_rejects_all_witness :
  validate (props_with (Some []) None) (Some photo_png) =
    Rejected "Unsupported file format: .png. Allowed formats are: ."
  /\ annotation_formats (props_with (Some []) None) = "JPG, JPEG, PNG, WEBP, GIF".
Proof.
  pose proof (empty_list_rejects_all (props_with (Some []) None) photo_png eq_refl)
    as (_ & Hmsg & Hann).
  split; [apply Hmsg; vm_compute; tauto | exact Hann].
Defined.

(** X5: the maximum-size annotation and the limit in force.  When the
    annotation reads "< 1MB", the limit in force is [maxSize], below 1 MiB:
    a file passes the size test exactly when its size is at most [maxSize],
    so files of 1 MiB or more fail and smaller ones may fail too.
    Otherwise it prints a whole number [k] of MiB which is at most the limit
    in force, so every file up to [k] MiB passes; when [maxSize] was passed
    and is not 0, the limit is below [k + 1] MiB, and files of [k + 1] MiB
    or more fail.  Without [maxSize] it prints 0 while the limit in force is
    5 MiB. *)
Theorem annotation_brackets_limit (p : Props) (f : File) :
  (below_one_MiB p = true ->
     annotation_max_size p = "< 1MB"
     /\ maxSize p = Some (maxFileSize p)
     /\ maxFileSize p < JS.MiB
     /\ (test_fileSize p (Some f) = Pass <-> Z.of_N (size f) <= maxFileSize p)
     /\ (JS.MiB <= Z.of_N (size f) ->
         test_fileSize p (Some f) = Fail (too_large_msg p f)))
  /\ (below_one_MiB p = false ->
      annotation_max_size p
        = JS.Number_toString (annotation_whole_MiB p * JS.MiB) ++ "MB"
      /\ 0 <= annotation_whole_MiB p
      /\ annotation_whole_MiB p * JS.MiB <= maxFileSize p
      /\ (Z.of_N (size f) <= annotation_whole_MiB p * JS.MiB ->
          test_fileSize p (Some f) = Pass)
      /\ (forall m, maxSize p = Some m -> m <> 0 ->
          maxFileSize p < (annotation_whole_MiB p + 1) * JS.MiB
          /\ ((annotation_whole_MiB p + 1) * JS.MiB <= Z.of_N (size f) ->
              test_fileSize p (Some f) = Fail (too_large_msg p f))))
  /\ (maxSize p = None ->
      annotation_max_size p = "0MB" /\ maxFileSize p = 5 * 1024 * 1024).
Proof.
  unfold annotation_max_size, annotation_whole_MiB, below_one_MiB, test_fileSize,
    maxFileSize, JS.floor_MiB, JS.or_else, JS.truthy_number.
  change JS.MiB with 1048576.
  destruct (maxSize p) as [m|]; [destruct (Z.eqb_spec m 0) as [->|Hm0]|];
    cbn [negb andb].
  - split; [discriminate|]. split; [|discriminate].
    intros _. split; [reflexivity|]. split; [discriminate|].
    change (0 / 1048576) with 0. split; [lia|]. split.
    + intros Hle.
      destruct (Z.gtb_spec (Z.of_N (size f)) (5 * 1024 * 1024)); [lia|reflexivity].
    + intros m' [= <-] Hne. contradiction.
  - destruct (Z.ltb_spec m (1024 * 1024)) as [Hlt|Hge].
    + split; [|split; discriminate].
      intros _. split; [reflexivity|]. split; [reflexivity|]. split; [lia|].
      destruct (Z.gtb_spec (Z.of_N (size f)) m) as [Hgt|Hle].
      * split; [split; [discriminate | lia] | reflexivity].
      * split; [split; [intros _; exact Hle | reflexivity] | lia].
    + split; [discriminate|]. split; [|discriminate].
      intros _. split; [reflexivity|].
      pose proof (Z.div_mod m 1048576 ltac:(lia)) as Hdm.
      pose proof (Z.mod_pos_bound m 1048576 ltac:(lia)) as Hb.
      split; [apply Z.div_pos; lia|]. split; [lia|]. split.
      * intros Hle.
        destruct (Z.gtb_spec (Z.of_N (size f)) m); [lia|reflexivity].
      * intros m' [= <-] _. split; [lia|]. intros Hbig.
        destruct (Z.gtb_spec (Z.of_N (size f)) m); [reflexivity|lia].
  - split; [discriminate|]. split.
    + intros _. split; [reflexivity|]. split; [discriminate|].
      change (0 / 1048576) with 0. split; [lia|]. split.
      * intros Hle.
        destruct (Z.gtb_spec (Z.of_N (size f)) (5 * 1024 * 1024)); [lia|reflexivity].
      * intros m' Hm'. discriminate Hm'.
    + intros _. split; reflexivity.
Qed.

Lemma annotation_brackets_limit_witness :
  annotation_max_size (props_with None (Some 500000)) = "< 1MB"
  /\ test_fileSize (props_with None (Some 500000))
       (Some {| name := "small.png"; size := 600000 |})
     <> Pass
  /\ annotation_max_size (props_with None (Some 3500000)) = "3MB"
  /\ test_fileSize (props_with None (Some 3500000)) (Some photo_png) = Pass
  /\ test_fileSize (props_with None (Some 3500000))
       (Some {| name := "big.png"; size := 4 * 1024 * 1024 |})
     = Fail "File size is too large: 4.00MB. Maximum allowed size is 3.337860107421875MB."
  /\ annotation_max_size default_props = "0MB".
Proof.
  pose proof (annotation_brackets_limit (props_with None (Some 500000))
                {| name := "small.png"; size := 600000 |}) as (Hlow & _ & _).
  pose proof (annotation_brackets_limit (props_with None (Some 3500000)) photo_png)
    as (_ & Hwhole & _).
  pose proof (annotation_brackets_limit (props_with None (Some 3500000))
                {| name := "big.png"; size := 4 * 1024 * 1024 |}) as (_ & Hbig & _).
  pose proof (annotation_brackets_limit default_props photo_png) as (_ & _ & Hnone).
  destruct (Hlow eq_refl) as (Htext & _ & _ & Hiff & _).
  split; [exact Htext|].
  split; [intros Hpass; apply Hiff in Hpass; vm_compute in Hpass; apply Hpass; reflexivity|].
  destruct (Hwhole eq_refl) as (Htext3 & _ & _ & Hpass & _).
  split; [rewrite Htext3; vm_compute; reflexivity|].
  split; [apply Hpass; vm_compute; discriminate|].
  destruct (Hbig eq_refl) as (_ & _ & _ & _ & Hfail).
  split; [|exact (proj1 (Hnone eq_refl))].
  destruct (Hfail 3500000 eq_refl ltac:(discriminate)) as [_ Hf].
  rewrite Hf; [vm_compute; reflexivity | vm_compute; discriminate].
Defined.

(** ** More on the controller *)

Lemma run_cons (a : Action) (rest : list Action) (c : Component) :
  run (a :: rest) c =
  (fst (run rest (fst (step a c))),
   (snd (step a c) ++ snd (run rest (fst (step a c))))%list).
Proof.
  cbn [run]. destruct (step a c) as [c1 out1]. cbn [fst snd].
  destruct (run rest c1) as [c2 out2]. reflexivity.
Qed.

Lemma step_emits (a : Action) (c : Component) :
  List.length (snd (step a c)) = emits_of a.
Proof.
  destruct a as [e|e|b| | |newSrc| ]; cbn [step emits_of].
  - unfold handleChange, select. destruct (extract_file e); [|reflexivity].
    destruct (validate _ _); reflexivity.
  - unfold handleDrop, select. destruct (extract_file e); [|reflexivity].
    destruct (validate _ _); reflexivity.
  - reflexivity.
  - reflexivity.
  - reflexivity.
  - unfold src_changed. destruct (same_src _ _); [reflexivity|].
    destruct newSrc as [s|]; [destruct (JS.truthy_string s)|]; reflexivity.
  - unfold render.
    destruct (match image (state c) with Some _ => true | None => _ end);
      [|reflexivity].
    destruct (previewUrl c). reflexivity.
Qed.

(** X6: every action emits at most one event: a reset exactly one, a change
    or a drop one when the event carries a file and none otherwise, every
    other action none; so a run emits as many events as it has resets and
    file-carrying inputs. *)
Theorem one_event_per_action (acts : list Action) (c : Component) :
  List.length (snd (run acts c)) = list_sum (map emits_of acts)
  /\ (List.length (snd (run acts c)) <= List.length acts)%nat.
Proof.
  revert c. induction acts as [|a rest IH]; intros c.
  - split; reflexivity.
  - rewrite run_cons. cbn [snd map list_sum List.length].
    rewrite List.length_app, step_emits.
    destruct (IH (fst (step a c))) as [Hsum Hle]. rewrite Hsum. split; [reflexivity|].
    rewrite <- Hsum.
    assert (emits_of a <= 1)%nat.
    { destruct a as [e|e|b| | |newSrc| ]; cbn [emits_of];
        try destruct (extract_file e); lia. }
    lia.
Qed.

Lemma step_follows (a : Action) (c : Component) (r : State) :
  follows (state c) r ->
  follows (state (fst (step a c))) (replay r (snd (step a c)))
  /\ (is_src_change a = false -> state c = r ->
      state (fst (step a c)) = replay r (snd (step a c))).
Proof.
  intros (Ht & He & Hi).
  assert (Hsel : forall e c', state c' = state c ->
     follows (state (fst (select e c'))) (replay r (snd (select e c')))
     /\ (state c = r -> state (fst (select e c')) = replay r (snd (select e c')))).
  { intros e c' Hc'. unfold select.
    destruct (extract_file e) as [f|].
    - destruct (validate (props c') (Some f)) as [|msg];
        cbn [fst snd replay fold_left replay_event state with_state].
      + split; [repeat split; auto | reflexivity].
      + rewrite Hc'. split.
        * unfold follows. cbn [image touched error]. auto.
        * intros <-. reflexivity.
    - cbn [fst snd replay fold_left]. rewrite Hc'.
      split; [repeat split; auto | auto]. }
  destruct a as [e|e|b| | |newSrc| ]; cbn [step is_src_change].
  - destruct (Hsel e c eq_refl) as [H1 H2]. split; [exact H1 | intros _; exact H2].
  - destruct (Hsel e (with_dragging false c) eq_refl) as [H1 H2].
    split; [exact H1 | intros _; exact H2].
  - split; [repeat split; auto | intros _ H; exact H].
  - split; [repeat split; auto | reflexivity].
  - split; [repeat split; auto | intros _ H; exact H].
  - split; [|discriminate].
    unfold src_changed. destruct (same_src _ _); [repeat split; auto|].
    destruct newSrc as [s|]; [destruct (JS.truthy_string s)|];
      cbn [fst snd replay fold_left state with_state with_props];
      unfold follows; cbn [image touched error]; auto.
  - assert (Hst : state (fst (render c)) = state c).
    { unfold render, previewUrl.
      destruct (image (state c));
        [reflexivity|].
      destruct (src (props c)) as [s|]; [destruct (JS.truthy_string s)|];
        reflexivity. }
    assert (Hout : snd (render c) = []).
    { unfold render.
      destruct (match image (state c) with Some _ => true | None => _ end);
        [|reflexivity].
      destruct (previewUrl c). reflexivity. }
    rewrite Hst, Hout. split; [repeat split; auto | intros _ H; exact H].
Qed.

Lemma replay_app (r : State) (xs ys : list Emit) :
  replay r (xs ++ ys) = replay (replay r xs) ys.
Proof. unfold replay. apply fold_left_app. Qed.

Lemma run_follows (acts : list Action) :
  forall (c : Component) (r : State),
    follows (state c) r ->
    follows (state (fst (run acts c))) (replay r (snd (run acts c)))
    /\ (forallb (fun a => negb (is_src_change a)) acts = true -> state c = r ->
        state (fst (run acts c)) = replay r (snd (run acts c))).
Proof.
  induction acts as [|a rest IH]; intros c r Hf.
  - split; [exact Hf | intros _ H; exact H].
  - rewrite run_cons. cbn [fst snd]. rewrite replay_app.
    destruct (step_follows a c r Hf) as [Hstep Heq].
    destruct (IH (fst (step a c)) _ Hstep) as [Hrest Hreq].
    split; [exact Hrest|].
    cbn [forallb]. intros Hall Hc. apply andb_true_iff in Hall as [Ha Hall].
    apply negb_true_iff in Ha. apply Hreq; [exact Hall | exact (Heq Ha Hc)].
Qed.

(** X7: a host that replays the emitted events has the component's
    [touched] and [error]; its file is the component's, unless the watcher
    of [src] cleared the component's.  When [src] never changes the replayed
    state is the state. *)
Theorem events_determine_state (p : Props) (acts : list Action) :
  touched (state (fst (run acts (mount p))))
    = touched (replay initial_state (snd (run acts (mount p))))
  /\ error (state (fst (run acts (mount p))))
    = error (replay initial_state (snd (run acts (mount p))))
  /\ (image (state (fst (run acts (mount p))))
        = image (replay initial_state (snd (run acts (mount p))))
      \/ image (state (fst (run acts (mount p)))) = None)
  /\ (forallb (fun a => negb (is_src_change a)) acts = true ->
      state (fst (run acts (mount p)))
        = replay initial_state (snd (run acts (mount p)))).
Proof.
  assert (H0 : follows (state (mount p)) initial_state) by (repeat split; auto).
  destruct (run_follows acts (mount p) initial_state H0) as [(Ht & He & Hi) Heq].
  split; [exact Ht|]. split; [exact He|]. split; [exact Hi|].
  intros Hall. apply Heq; [exact Hall | reflexivity].
Qed.

Lemma events_determine_state_witness :
  state (fst (run [Change (picker_event [photo_png]); DragHover true;
                   Drop (drop_event [c_exe]); Render] (mount default_props)))
  = replay initial_state
      [EmitSelect photo_png;
       EmitError "Unsupported file format: .exe. Supported formats are: jpg, jpeg, png, webp, gif."].
Proof.
  exact (proj2 (proj2 (proj2 (events_determine_state default_props
           [Change (picker_event [photo_png]); DragHover true;
            Drop (drop_event [c_exe]); Render]))) eq_refl).
Defined.

Ltac case_matches :=
  repeat match goal with
         | |- context [match ?x with _ => _ end] =>
             lazymatch x with
             | context [match _ with _ => _ end] => fail
             | _ => destruct x eqn:?
             end
         end.

Lemma step_same_selection (a : Action) (c d : Component) :
  same_selection c d ->
  same_selection (fst (step a c)) (fst (step a d))
  /\ snd (step a c) = snd (step a d).
Proof.
  intros (Hp & Hs).
  destruct c as [pc sc dc uc ic], d as [pd sd dd ud id].
  cbn [props state] in Hp, Hs. subst pd sd.
  unfold same_selection.
  destruct a as [e|e|b| | |newSrc| ]; cbn [step];
    unfold handleChange, handleDrop, handleDrag, handleReset, handleBrowse,
      select, reset, src_changed, render, previewUrl, createObjectURL,
      with_dragging;
    cbn [props state urls img_src isDragging];
    case_matches;
    cbn [fst snd props state with_state with_urls with_img with_props];
    repeat split; congruence.
Qed.

Lemma view_only_step (a : Action) (c : Component) :
  is_view_only a = true ->
  same_selection (fst (step a c)) c /\ snd (step a c) = [].
Proof.
  destruct a; try discriminate; intros _; try (repeat split; fail).
  cbn [step]. unfold render, previewUrl, createObjectURL, same_selection.
  case_matches; cbn [fst snd props state with_img with_urls]; repeat split.
Qed.

Lemma same_selection_trans (c d e : Component) :
  same_selection c d -> same_selection d e -> same_selection c e.
Proof.
  unfold same_selection.
  intros (H1 & H2) (K1 & K2). split; congruence.
Qed.

Lemma run_without_view_only (acts : list Action) :
  forall c d : Component,
    same_selection c d ->
    same_selection
      (fst (run acts c))
      (fst (run (List.filter (fun a => negb (is_view_only a)) acts) d))
    /\ snd (run acts c)
       = snd (run (List.filter (fun a => negb (is_view_only a)) acts) d).
Proof.
  induction acts as [|a rest IH]; intros c d Hcd.
  - split; [exact Hcd | reflexivity].
  - cbn [List.filter]. destruct (is_view_only a) eqn:Ha; cbn [negb].
    + rewrite run_cons. cbn [fst snd].
      destruct (view_only_step a c Ha) as [Hsame Hout]. rewrite Hout.
      apply IH. exact (same_selection_trans _ _ _ Hsame Hcd).
    + rewrite !run_cons. cbn [fst snd].
      destruct (step_same_selection a c d Hcd) as [Hsame Hout].
      destruct (IH _ _ Hsame) as [Hrest Houts].
      split; [exact Hrest | rewrite Hout, Houts; reflexivity].
Qed.

(** X8: drag hovers, browsing and renders are invisible to the selection:
    removing them from a run changes neither the state, nor the props, nor
    the events emitted.  (They do change the drag flag, and a render with a
    file held creates an object URL.) *)
Theorem view_actions_invisible (acts : list Action) (c : Component) :
  same_selection
    (fst (run acts c))
    (fst (run (List.filter (fun a => negb (is_view_only a)) acts) c))
  /\ snd (run acts c)
     = snd (run (List.filter (fun a => negb (is_view_only a)) acts) c).
Proof.
  apply run_without_view_only. split; reflexivity.
Qed.

(** *** Object URLs over a run *)

Lemma step_keeps_registered (a : Action) (c : Component) (u : nat) (f : File) :
  store_wf (urls c) ->
  registered (urls c) !! u = Some f ->
  registered (urls (fst (step a c))) !! u = Some f.
Proof.
  intros Hwf Hu.
  assert (Hsel : forall e c', urls c' = urls c -> urls (fst (select e c')) = urls c).
  { intros e c' H. unfold select. destruct (extract_file e); [|exact H].
    destruct (validate _ _); exact H. }
  destruct a as [e|e|b| | |newSrc| ]; cbn [step].
  - unfold handleChange. rewrite (Hsel e c eq_refl). exact Hu.
  - unfold handleDrop. rewrite (Hsel e (with_dragging false c) eq_refl). exact Hu.
  - exact Hu.
  - unfold handleReset. apply reset_releases_nothing; [exact Hwf | exact Hu].
  - exact Hu.
  - unfold src_changed. destruct (same_src _ _); [exact Hu|].
    destruct newSrc as [s|]; [destruct (JS.truthy_string s)|]; exact Hu.
  - unfold render, previewUrl.
    destruct (image (state c)) as [g|].
    + cbn [createObjectURL fst with_img with_urls urls registered].
      pose proof (Hwf u f Hu). rewrite lookup_insert_ne by lia. exact Hu.
    + destruct (src (props c)) as [s|]; [destruct (JS.truthy_string s)|]; exact Hu.
Qed.

(** X9: no action ever releases an object URL: a URL that is registered
    stays registered, with the same file, through every run. *)
Theorem urls_never_released (acts : list Action) (c : Component) (u : nat) (f : File) :
  store_wf (urls c) ->
  registered (urls c) !! u = Some f ->
  registered (urls (fst (run acts c))) !! u = Some f.
Proof.
  revert c. induction acts as [|a rest IH]; intros c Hwf Hu; [exact Hu|].
  rewrite run_cons. cbn [fst]. apply IH.
  - apply step_store_wf. exact Hwf.
  - apply step_keeps_registered; [exact Hwf | exact Hu].
Qed.

Lemma urls_never_released_witness :
  registered (urls (fst (run [ClickReset; Change (picker_event [a_jpg]); Render;
                              ClickReset; SrcChanged (Some "x.png")]
                         preview_shown))) !! 0%nat = Some photo_png.
Proof.
  apply (urls_never_released _ preview_shown 0%nat photo_png).
  - exact (run_store_wf _ (mount default_props) (mount_store_wf default_props)).
  - vm_compute. reflexivity.
Defined.

(** X10: [previewUrl] with a file selected hands out a URL that was not
    registered before, registers the file under it and leaves the state
    alone; calling it again gives another URL.  Without a file it returns
    [props.src], or the empty string, and registers nothing. *)
Theorem previewUrl_fresh (c : Component) :
  store_wf (urls c) ->
  (forall f, image (state c) = Some f ->
     exists u,
       fst (previewUrl c) = BlobUrl u
       /\ registered (urls c) !! u = None
       /\ registered (urls (snd (previewUrl c))) !! u = Some f
       /\ state (snd (previewUrl c)) = state c
       /\ fst (previewUrl (snd (previewUrl c))) <> BlobUrl u)
  /\ (image (state c) = None ->
      snd (previewUrl c) = c
      /\ fst (previewUrl c)
         = PlainUrl (match src (props c) with Some s => s | None => "" end)).
Proof.
  intros Hwf. split.
  - intros f Hf. exists (next_id (urls c)).
    unfold previewUrl. rewrite Hf.
    cbn [createObjectURL fst snd with_urls urls state registered next_id].
    rewrite Hf. cbn [createObjectURL fst snd next_id].
    split; [reflexivity|]. split.
    + destruct (registered (urls c) !! next_id (urls c)) as [g|] eqn:Hg; [|reflexivity].
      pose proof (Hwf _ _ Hg). lia.
    + split; [apply lookup_insert_eq|]. split; [reflexivity|].
      intros [= H]. lia.
  - intros Hnone. unfold previewUrl. rewrite Hnone. cbn [fst snd].
    split; [reflexivity|]. f_equal.
    unfold JS.or_else. destruct (src (props c)) as [s|]; [|reflexivity].
    destruct s; reflexivity.
Qed.

Lemma previewUrl_fresh_witness :
  exists u, fst (previewUrl preview_shown) = BlobUrl u
            /\ registered (urls preview_shown) !! u = None.
Proof.
  destruct (proj1 (previewUrl_fresh preview_shown
              (run_store_wf _ (mount default_props) (mount_store_wf default_props)))
              photo_png eq_refl) as (u & H1 & H2 & _).
  exists u. split; [exact H1 | exact H2].
Defined.

Lemma step_preview_resolves (a : Action) (c : Component) :
  preview_resolves c -> preview_resolves (fst (step a c)).
Proof.
  intros [Hwf Hres]. split; [apply step_store_wf; exact Hwf|].
  assert (Hkeep : img_src (fst (step a c)) = img_src c ->
     forall u, img_src (fst (step a c)) = Some (BlobUrl u) ->
               exists f, registered (urls (fst (step a c))) !! u = Some f).
  { intros Heq u Hu. rewrite Heq in Hu. destruct (Hres u Hu) as [f Hf].
    exists f. apply step_keeps_registered; [exact Hwf | exact Hf]. }
  destruct a as [e|e|b| | |newSrc| ]; [apply Hkeep; cbn [step] ..|].
  - unfold handleChange, select. case_matches; reflexivity.
  - unfold handleDrop, select. case_matches; reflexivity.
  - reflexivity.
  - unfold handleReset, reset. case_matches; reflexivity.
  - reflexivity.
  - unfold src_changed. case_matches; reflexivity.
  - clear Hkeep. cbn [step]. unfold render, previewUrl.
    destruct (image (state c)) as [g|].
    + cbn [createObjectURL fst with_img with_urls urls img_src registered].
      intros u [= <-]. exists g. apply lookup_insert_eq.
    + destruct (src (props c)) as [s|]; [destruct (JS.truthy_string s)|];
        cbn [fst img_src with_img]; intros u; discriminate.
Qed.

Lemma run_preview_resolves (acts : list Action) :
  forall c, preview_resolves c -> preview_resolves (fst (run acts c)).
Proof.
  induction acts as [|a rest IH]; intros c H; [exact H|].
  rewrite run_cons. cbn [fst]. apply IH, step_preview_resolves, H.
Qed.

(** X11: in every component reached from a mount, an object URL in the
    [src] of the [<img>] is registered; and right after a render it is
    registered for the file selected at that moment. *)
Theorem preview_never_dangles (p : Props) (acts : list Action) (u : nat) :
  (img_src (fst (run acts (mount p))) = Some (BlobUrl u) ->
   exists f, registered (urls (fst (run acts (mount p)))) !! u = Some f)
  /\ (img_src (fst (render (fst (run acts (mount p))))) = Some (BlobUrl u) ->
      registered (urls (fst (render (fst (run acts (mount p)))))) !! u
      = image (state (fst (render (fst (run acts (mount p))))))).
Proof.
  assert (H0 : preview_resolves (mount p)).
  { split; [apply mount_store_wf | intros v; discriminate]. }
  split.
  - apply (run_preview_resolves acts (mount p) H0).
  - generalize (fst (run acts (mount p))). intros c.
    unfold render, previewUrl.
    destruct (image (state c)) as [g|] eqn:Hg.
    + cbn [createObjectURL fst with_img with_urls urls img_src registered state].
      intros [= <-]. rewrite Hg. apply lookup_insert_eq.
    + destruct (src (props c)) as [s|]; [destruct (JS.truthy_string s)|];
        cbn [fst img_src with_img]; discriminate.
Qed.

Lemma preview_never_dangles_witness :
  exists f, registered (urls (fst (run [Change (picker_event [photo_png]); Render;
                                        ClickReset] (mount default_props)))) !! 0%nat
            = Some f.
Proof.
  exact (proj1 (preview_never_dangles default_props
                  [Change (picker_event [photo_png]); Render; ClickReset] 0%nat)
               eq_refl).
Defined.

(** *** Events and the view *)

Lemma step_props_fixed (p : Props) (a : Action) (c : Component) :
  props_fixed p c -> props_fixed p (fst (step a c)).
Proof.
  intros [Hf Hm]. unfold props_fixed.
  destruct a as [e|e|b| | |newSrc| ]; cbn [step];
    unfold handleChange, handleDrop, handleDrag, handleReset, handleBrowse,
      select, reset, src_changed, render, previewUrl, createObjectURL;
    case_matches;
    cbn [fst props with_state with_urls with_img with_props with_dragging set_src
         supportedFormats maxSize];
    split; assumption.
Qed.

Lemma select_justified (p : Props) (e : Event) (c : Component) (ev : Emit) :
  props_fixed p c ->
  In ev (snd (select e c)) ->
  match ev with
  | EmitSelect f => extract_file e = Some f /\ validate p (Some f) = Accepted
  | EmitError msg => exists f, extract_file e = Some f /\ validate p (Some f) = Rejected msg
  | EmitReset => False
  end.
Proof.
  intros [Hf Hm]. unfold select.
  destruct (extract_file e) as [f|]; [|intros []].
  rewrite (validate_props_ext (props c) p (Some f) Hf Hm).
  destruct (validate p (Some f)) as [|msg] eqn:Hv; cbn [snd].
  - intros [<-|[]]. split; [reflexivity | exact Hv].
  - intros [<-|[]]. exists f. split; [reflexivity | exact Hv].
Qed.

Lemma step_justified (p : Props) (a : Action) (c : Component) (ev : Emit) :
  props_fixed p c -> In ev (snd (step a c)) -> justified p a ev.
Proof.
  intros Hp Hin.
  destruct a as [e|e|b| | |newSrc| ]; cbn [step] in Hin.
  - pose proof (select_justified p e c ev Hp Hin) as H.
    destruct ev; cbn [justified attempt]; [exact H | contradiction | exact H].
  - pose proof (select_justified p e (with_dragging false c) ev Hp Hin) as H.
    destruct ev; cbn [justified attempt]; [exact H | contradiction | exact H].
  - destruct Hin.
  - destruct Hin as [<-|[]]. reflexivity.
  - destruct Hin.
  - unfold src_changed in Hin. revert Hin. case_matches; intros [].
  - unfold render in Hin. revert Hin. unfold previewUrl, createObjectURL.
    case_matches; intros [].
Qed.

(** X12: every event has its cause.  A [select] event carries a file that
    some change or drop submitted and that passes validation with the props
    of the mount; an [error] event carries the reason for which validation
    rejected a submitted file; a [reset] event comes from the reset control. *)
Theorem events_are_justified (p : Props) (acts : list Action) (ev : Emit) :
  In ev (snd (run acts (mount p))) ->
  exists a, In a acts /\ justified p a ev.
Proof.
  assert (H0 : props_fixed p (mount p)) by (split; reflexivity).
  revert H0. generalize (mount p).
  induction acts as [|a rest IH]; intros c Hp Hin; [destruct Hin|].
  rewrite run_cons in Hin. cbn [snd] in Hin.
  apply in_app_or in Hin as [Hin|Hin].
  - exists a. split; [left; reflexivity | exact (step_justified p a c ev Hp Hin)].
  - destruct (IH _ (step_props_fixed p a c Hp) Hin) as (b & Hb & Hj).
    exists b. split; [right; exact Hb | exact Hj].
Qed.

Lemma events_are_justified_witness :
  exists a, In a [Drop (drop_event [photo_png; c_exe]); ClickReset]
            /\ justified default_props a (EmitSelect photo_png).
Proof.
  apply (events_are_justified default_props
           [Drop (drop_event [photo_png; c_exe]); ClickReset] (EmitSelect photo_png)).
  left. reflexivity.
Defined.

Lemma replay_touched_shown (evs : list Emit) :
  forall r, touched r = reset_control_shown r ->
            touched (replay r evs) = reset_control_shown (replay r evs).
Proof.
  induction evs as [|ev rest IH]; intros r Hr; [exact Hr|].
  cbn [replay fold_left]. apply IH.
  destruct ev; cbn [replay_event]; try reflexivity. exact Hr.
Qed.

(** X13: as long as the host does not change [src], [touched] is true
    exactly while a file is held, that is, while the reset control is
    shown.  (After a change of [src] it can be true without a file.) *)
Theorem touched_iff_file_held (p : Props) (acts : list Action) :
  forallb (fun a => negb (is_src_change a)) acts = true ->
  touched (state (fst (run acts (mount p))))
  = reset_control_shown (state (fst (run acts (mount p)))).
Proof.
  intros Hall.
  assert (H0 : follows (state (mount p)) initial_state) by (repeat split; auto).
  rewrite (proj2 (run_follows acts (mount p) initial_state H0) Hall eq_refl).
  apply replay_touched_shown. reflexivity.
Qed.

Lemma touched_iff_file_held_witness :
  touched (state picked_then_rejected) = reset_control_shown (state picked_then_rejected)
  /\ touched (state (fst (run [Change (picker_event [photo_png]);
                               SrcChanged (Some "logo.png")] (mount default_props))))
     <> reset_control_shown
          (state (fst (run [Change (picker_event [photo_png]);
                            SrcChanged (Some "logo.png")] (mount default_props)))).
Proof.
  split.
  - exact (touched_iff_file_held default_props
             [Change (picker_event [photo_png]); Change (picker_event [c_exe])] eq_refl).
  - vm_compute. discriminate.
Defined.

Lemma rejection_not_empty (p : Props) (v : option File) (msg : string) :
  validate p v = Rejected msg -> JS.truthy_string msg = true.
Proof.
  unfold validate, image_tests, first_failure, test_fileFormat, test_fileSize,
    test_required, unsupported_msg, not_allowed_msg, too_large_msg.
  destruct v as [f|]; [|intros [= <-]; reflexivity].
  case_matches; intros [= <-]; reflexivity.
Qed.

(** X14: an error is never the empty string, so whenever [state.error] is
    set the error block of the template is rendered, with that text. *)
Theorem error_is_shown (p : Props) (acts : list Action) (msg : string) :
  error (state (fst (run acts (mount p)))) = Some msg ->
  error_block (state (fst (run acts (mount p)))) = Some msg.
Proof.
  intros Herr.
  destruct (run_records p acts None False (mount p) (mount_records p))
    as (_ & _ & He & _).
  destruct (He msg Herr) as (f & _ & Hv).
  unfold error_block. rewrite Herr, (rejection_not_empty p (Some f) msg Hv).
  reflexivity.
Qed.

Lemma error_is_shown_witness :
  error_block (state picked_then_rejected) =
  Some "Unsupported file format: .exe. Supported formats are: jpg, jpeg, png, webp, gif.".
Proof.
  exact (error_is_shown default_props
           [Change (picker_event [photo_png]); Change (picker_event [c_exe])]
           _ eq_refl).
Defined.

(** X15: selecting is idempotent on the state: submitting the same event a
    second time leaves the state as it was after the first (the event is
    emitted again). *)
Theorem select_twice (e : Event) (c : Component) :
  state (fst (select e (fst (select e c)))) = state (fst (select e c))
  /\ snd (select e (fst (select e c))) = snd (select e c).
Proof.
  unfold select.
  destruct (extract_file e) as [f|]; [|split; reflexivity].
  destruct (validate (props c) (Some f)) as [|msg] eqn:Hv;
    cbn [fst snd props with_state]; rewrite Hv; split; reflexivity.
Qed.

(** ** Splitting and joining *)

Lemma concat_cons2 (sep x y : string) (l : list string) :
  String.concat sep (x :: y :: l) = x ++ sep ++ String.concat sep (y :: l).
Proof. reflexivity. Qed.

(** X16: splitting a name at a separator loses nothing: joining the
    segments with the separator gives the name back, and no segment
    contains the separator. *)
Theorem join_split (sep : ascii) (s : string) :
  JS.join (String sep EmptyString) (JS.split sep s) = s
  /\ Forall (fun seg => JS.contains sep seg = false) (JS.split sep s).
Proof.
  unfold JS.join. induction s as [|c rest IH].
  - split; [reflexivity | repeat constructor].
  - destruct IH as [IHj IHf]. cbn [JS.split]. destruct (Ascii.eqb_spec c sep) as [->|Hne].
    + destruct (JS.split sep rest) as [|a l] eqn:Hs;
        [exfalso; exact (split_not_nil sep rest Hs)|].
      split; [rewrite concat_cons2, IHj; reflexivity|].
      constructor; [reflexivity | exact IHf].
    + destruct (JS.split sep rest) as [|a l] eqn:Hs;
        [exfalso; exact (split_not_nil sep rest Hs)|].
      pose proof (List.Forall_inv IHf) as Ha. cbv beta in Ha.
      pose proof (List.Forall_inv_tail IHf) as Hl.
      split.
      * destruct l as [|b l]; [cbn in IHj |- *; rewrite IHj; reflexivity|].
        rewrite concat_cons2 in IHj |- *. rewrite <- IHj. reflexivity.
      * constructor; [|exact Hl]. cbn [JS.contains].
        rewrite Ha. destruct (Ascii.eqb_spec c sep); [contradiction|reflexivity].
Qed.

(** ** The bundle names *)

Lemma append_cons (x : ascii) (a b : string) : String x a ++ b = String x (a ++ b).
Proof. reflexivity. Qed.

Lemma append_inv_head (a b c : string) : a ++ b = a ++ c -> b = c.
Proof.
  induction a as [|x a IH]; [exact (fun H => H)|].
  rewrite !append_cons. intros [= H]. exact (IH H).
Qed.

Lemma length_append (a b : string) :
  String.length (a ++ b) = (String.length a + String.length b)%nat.
Proof.
  induction a as [|x a IH]; [reflexivity|].
  rewrite append_cons. cbn [String.length]. rewrite IH. reflexivity.
Qed.

Lemma append_inv_tail (a b t : string) : a ++ t = b ++ t -> a = b.
Proof.
  revert b. induction a as [|x a IH]; intros [|y b] H.
  - reflexivity.
  - exfalso. apply (f_equal String.length) in H.
    rewrite !length_append in H. cbn [String.length] in H. lia.
  - exfalso. apply (f_equal String.length) in H.
    rewrite !length_append in H. cbn [String.length] in H. lia.
  - rewrite !append_cons in H. injection H as -> H. f_equal. exact (IH b H).
Qed.

(** X17: for one library name, two output formats never get the same
    bundle file name: the name of the "es" bundle has no format part, every
    other one has its format between the name and ".js". *)
Theorem fileName_injective (f g name : string) :
  fileName f name = fileName g name -> f = g.
Proof.
  unfold fileName.
  destruct (String.eqb_spec f "es") as [->|Hf];
    destruct (String.eqb_spec g "es") as [->|Hg]; intros H.
  - reflexivity.
  - exfalso. apply append_inv_head in H. apply (f_equal String.length) in H.
    rewrite !length_append in H. cbn [String.length] in H. lia.
  - exfalso. apply append_inv_head in H. apply (f_equal String.length) in H.
    rewrite !length_append in H. cbn [String.length] in H. lia.
  - apply append_inv_head in H. rewrite !append_cons in H. injection H as H.
    exact (append_inv_tail f g ".js" H).
Qed.

Lemma fileName_injective_witness :
  fileName "es" "vuepik" = "vuepik.js" /\ fileName "umd" "vuepik" = "vuepik.umd.js"
  /\ "cjs" = "cjs".
Proof.
  split; [reflexivity|]. split; [reflexivity|].
  exact (fileName_injective "cjs" "cjs" "vuepik" eq_refl).
Defined.
